(** * go-grpc-file-upload: the upload server (cmd/server/main.go)

    A shallow embedding of the ConnectRPC upload server: filename
    sanitisation, the streaming [Upload] handler with its commit message,
    the unary [UploadFile] handler, and the parts of the Go standard library
    they lean on (crypto/sha256, encoding/hex, strings, path/filepath, os).

    Conventions.
    - A Go [string] is a sequence of bytes: Rocq's [string] (8-bit [ascii]).
    - A Go [[]byte] is a [list byte].
    - [uint32], [uint64] and [int64] values are [Z] with the wrap-around
      written out at every arithmetic operation.
    - The file system is a finite map from paths to contents, together with
      the table of open descriptors.
    - path/filepath is embedded for Unix-like targets, where the only path
      separator is the forward slash and there are no volume names. *)

From Stdlib Require Import ZArith Lia List Ascii String.
From Stdlib.Strings Require Import Byte.
From stdpp Require Import base option list gmap strings.

Import ListNotations.

(** ** crypto/sha256 *)

Module Sha256.
Local Open Scope Z_scope.

(** [chunk] is the block size in bytes, [Size] the digest size in bytes. *)
Definition chunk : nat := 64.
Definition Size : nat := 32.

Definition u32 (z : Z) : Z := z mod 2 ^ 32.
Definition u64 (z : Z) : Z := z mod 2 ^ 64.

(** [bits.RotateLeft32]: [s := uint(k) & 31; x<<s | x>>(32-s)]. *)
Definition RotateLeft32 (x k : Z) : Z :=
  let s := k mod 32 in
  Z.lor (u32 (Z.shiftl x s)) (Z.shiftr x (32 - s)).

Definition init : list Z :=
  [ 0x6A09E667; 0xBB67AE85; 0x3C6EF372; 0xA54FF53A;
    0x510E527F; 0x9B05688C; 0x1F83D9AB; 0x5BE0CD19 ].

Definition _K : list Z :=
  [ 0x428A2F98; 0x71374491; 0xB5C0FBCF; 0xE9B5DBA5; 0x3956C25B; 0x59F111F1;
    0x923F82A4; 0xAB1C5ED5; 0xD807AA98; 0x12835B01; 0x243185BE; 0x550C7DC3;
    0x72BE5D74; 0x80DEB1FE; 0x9BDC06A7; 0xC19BF174; 0xE49B69C1; 0xEFBE4786;
    0x0FC19DC6; 0x240CA1CC; 0x2DE92C6F; 0x4A7484AA; 0x5CB0A9DC; 0x76F988DA;
    0x983E5152; 0xA831C66D; 0xB00327C8; 0xBF597FC7; 0xC6E00BF3; 0xD5A79147;
    0x06CA6351; 0x14292967; 0x27B70A85; 0x2E1B2138; 0x4D2C6DFC; 0x53380D13;
    0x650A7354; 0x766A0ABB; 0x81C2C92E; 0x92722C85; 0xA2BFE8A1; 0xA81A664B;
    0xC24B8B70; 0xC76C51A3; 0xD192E819; 0xD6990624; 0xF40E3585; 0x106AA070;
    0x19A4C116; 0x1E376C08; 0x2748774C; 0x34B0BCB5; 0x391C0CB3; 0x4ED8AA4A;
    0x5B9CCA4F; 0x682E6FF3; 0x748F82EE; 0x78A5636F; 0x84C87814; 0x8CC70208;
    0x90BEFFFA; 0xA4506CEB; 0xBEF9A3F7; 0xC67178F2 ].

Definition byte_to_Z (b : byte) : Z := Z.of_N (Byte.to_N b).

Definition byte_of_Z (z : Z) : byte :=
  match Byte.of_N (Z.to_N (z mod 256)) with
  | Some b => b
  | None => x00
  end.

(** The running state.  Go keeps a 64-byte array [x] and the count [nx] of
    its valid bytes; the embedding keeps the valid prefix [x[:nx]], so [nx]
    is [length (x d)].  [len] is a [uint64]. *)
Record digest := Digest {
  h : list Z;
  x : list byte;
  len : Z
}.

(** [w[i] = p[4i]<<24 | p[4i+1]<<16 | p[4i+2]<<8 | p[4i+3]] for [i < 16]. *)
Fixpoint load_words (n : nat) (p : list byte) : list Z :=
  match n with
  | O => []
  | S n' =>
      let b i := byte_to_Z (nth i p x00) in
      Z.lor (Z.lor (Z.lor (Z.shiftl (b 0%nat) 24) (Z.shiftl (b 1%nat) 16))
                   (Z.shiftl (b 2%nat) 8)) (b 3%nat)
      :: load_words n' (skipn 4 p)
  end.

(** The message schedule for [i = 16 .. 63]: one more word per step. *)
Fixpoint schedule (n : nat) (w : list Z) : list Z :=
  match n with
  | O => w
  | S n' =>
      let i := length w in
      let v1 := nth (i - 2) w 0 in
      let t1 := Z.lxor (Z.lxor (RotateLeft32 v1 (-17)) (RotateLeft32 v1 (-19)))
                       (Z.shiftr v1 10) in
      let v2 := nth (i - 15) w 0 in
      let t2 := Z.lxor (Z.lxor (RotateLeft32 v2 (-7)) (RotateLeft32 v2 (-18)))
                       (Z.shiftr v2 3) in
      schedule n' (w ++ [u32 (t1 + nth (i - 7) w 0 + t2 + nth (i - 16) w 0)])
  end.

Record regs := Regs { ra : Z; rb : Z; rc : Z; rd : Z;
                      re : Z; rf : Z; rg : Z; rh : Z }.

(** One of the 64 rounds; [ki] and [wi] are [_K[i]] and [w[i]]. *)
Definition round (r : regs) (ki wi : Z) : regs :=
  let '(Regs a b c d e f g hh) := r in
  let t1 := u32 (hh
                 + Z.lxor (Z.lxor (RotateLeft32 e (-6)) (RotateLeft32 e (-11)))
                          (RotateLeft32 e (-25))
                 + Z.lxor (Z.land e f) (Z.land (u32 (Z.lnot e)) g)
                 + ki + wi) in
  let t2 := u32 (Z.lxor (Z.lxor (RotateLeft32 a (-2)) (RotateLeft32 a (-13)))
                        (RotateLeft32 a (-22))
                 + Z.lxor (Z.lxor (Z.land a b) (Z.land a c)) (Z.land b c)) in
  Regs (u32 (t1 + t2)) a b c (u32 (d + t1)) e f g.

Fixpoint rounds (r : regs) (ks ws : list Z) : regs :=
  match ks, ws with
  | k :: ks', w :: ws' => rounds (round r k w) ks' ws'
  | _, _ => r
  end.

(** The body of the loop of [blockGeneric]: one 64-byte block [p]. *)
Definition block1 (hs : list Z) (p : list byte) : list Z :=
  let w := schedule 48 (load_words 16 p) in
  let g i := nth i hs 0 in
  let r := rounds (Regs (g 0%nat) (g 1%nat) (g 2%nat) (g 3%nat)
                        (g 4%nat) (g 5%nat) (g 6%nat) (g 7%nat)) _K w in
  [ u32 (g 0%nat + ra r); u32 (g 1%nat + rb r); u32 (g 2%nat + rc r);
    u32 (g 3%nat + rd r); u32 (g 4%nat + re r); u32 (g 5%nat + rf r);
    u32 (g 6%nat + rg r); u32 (g 7%nat + rh r) ].

(** [for len(p) >= chunk { ...; p = p[chunk:] }], at most [n] times. *)
Fixpoint block_n (n : nat) (hs : list Z) (p : list byte) : list Z :=
  match n with
  | O => hs
  | S n' => block_n n' (block1 hs (firstn chunk p)) (skipn chunk p)
  end.

Definition block (hs : list Z) (p : list byte) : list Z :=
  block_n (length p / chunk) hs p.

Definition New : digest := Digest init [] 0.

(** [digest.Write]. *)
Definition Write (d : digest) (p : list byte) : digest :=
  let len' := u64 (len d + Z.of_nat (length p)) in
  (* if d.nx > 0 { n := copy(d.x[d.nx:], p); ... } *)
  let '(h1, x1, p1) :=
    if (0 <? length (x d))%nat then
      let n := Nat.min (chunk - length (x d)) (length p) in
      let x' := x d ++ firstn n p in
      if (length x' =? chunk)%nat
      then (block (h d) x', [], skipn n p)
      else (h d, x', skipn n p)
    else (h d, x d, p) in
  (* if len(p) >= chunk { n := len(p) &^ (chunk - 1); ... } *)
  let '(h2, p2) :=
    if (chunk <=? length p1)%nat then
      let n := (length p1 / chunk * chunk)%nat in
      (block h1 (firstn n p1), skipn n p1)
    else (h1, p1) in
  (* if len(p) > 0 { d.nx = copy(d.x[:], p) } *)
  let x3 := if (0 <? length p2)%nat then p2 else x1 in
  Digest h2 x3 len'.

(** [binary.BigEndian.PutUint64]. *)
Definition PutUint64 (v : Z) : list byte :=
  map (fun i => byte_of_Z (Z.shiftr v (8 * i))) [7; 6; 5; 4; 3; 2; 1; 0].

(** [binary.BigEndian.PutUint32]. *)
Definition PutUint32 (v : Z) : list byte :=
  map (fun i => byte_of_Z (Z.shiftr v (8 * i))) [3; 2; 1; 0].

(** [digest.checkSum]: pad with a 1 bit, zeros up to 56 bytes mod 64 and
    the length in bits, then serialise the eight words big-endian. *)
Definition checkSum (d : digest) : list byte :=
  let l := len d in
  let t := if l mod 64 <? 56 then 56 - l mod 64 else 64 + 56 - l mod 64 in
  let padlen := (byte_of_Z 0x80 :: repeat x00 (Z.to_nat t - 1))
                ++ PutUint64 (u64 (Z.shiftl l 3)) in
  let d' := Write d padlen in
  flat_map PutUint32 (h d').

(** [digest.Sum(nil)]: works on a copy, so [d] can keep being written. *)
Definition Sum (d : digest) : list byte := checkSum d.

(** [sha256.Sum256]. *)
Definition Sum256 (data : list byte) : list byte := Sum (Write New data).

(** What is left in the buffer once the whole blocks of [bs] are taken. *)
Definition tail_of (bs : list byte) : list byte :=
  skipn (length bs / chunk * chunk) bs.

(** The state of a hasher that has been fed exactly the bytes [bs]. *)
Definition fed (bs : list byte) : digest :=
  Digest (block init bs) (tail_of bs) (u64 (Z.of_nat (length bs))).

End Sha256.

(** ** encoding/hex *)

Module Hex.

Definition hextable : string := "0123456789abcdef".

Definition digit (n : N) : ascii :=
  match String.get (N.to_nat n) hextable with
  | Some c => c
  | None => "0"%char
  end.

(** [hex.EncodeToString]: [hextable[v>>4]], [hextable[v&0x0f]] per byte. *)
Fixpoint EncodeToString (src : list byte) : string :=
  match src with
  | [] => EmptyString
  | v :: rest =>
      let n := Byte.to_N v in
      String (digit (N.shiftr n 4))
             (String (digit (N.land n 15)) (EncodeToString rest))
  end.

End Hex.

(** ** strings *)

Module Strings.

(** [strings.ReplaceAll s old new] for a non-empty [old]: scanning from the
    left, every occurrence of [old] that does not overlap the previous one is
    replaced by [new].  [skip] counts the bytes of a matched occurrence that
    are still to be passed over.  (For an empty [old] Go inserts [new]
    around every rune; no call in this program does that and the embedding
    does not cover it.) *)
Fixpoint replace_from (skip : nat) (s old new : string) : string :=
  match s with
  | EmptyString => EmptyString
  | String c s' =>
      match skip with
      | S k => replace_from k s' old new
      | O =>
          if String.prefix old s
          then new +:+ replace_from (String.length old - 1) s' old new
          else String c (replace_from 0 s' old new)
      end
  end.

Definition ReplaceAll (s old new : string) : string := replace_from 0 s old new.

(** [strings.IndexByte(s, c) >= 0]. *)
Fixpoint contains_byte (c : ascii) (s : string) : bool :=
  match s with
  | EmptyString => false
  | String c' s' => Ascii.eqb c' c || contains_byte c s'
  end.

(** [strings.Join]. *)
Fixpoint Join (elems : list string) (sep : string) : string :=
  match elems with
  | [] => EmptyString
  | [e] => e
  | e :: rest => e +:+ sep +:+ Join rest sep
  end.

End Strings.

(** ** path/filepath (Unix) *)

Module Filepath.

Definition Separator : ascii := "/"%char.

(** [os.IsPathSeparator]: [PathSeparator == c]. *)
Definition IsPathSeparator (c : ascii) : bool := Ascii.eqb c Separator.

Fixpoint drop_while (f : ascii -> bool) (l : list ascii) : list ascii :=
  match l with
  | c :: l' => if f c then drop_while f l' else l
  | [] => []
  end.

Fixpoint take_while (f : ascii -> bool) (l : list ascii) : list ascii :=
  match l with
  | c :: l' => if f c then c :: take_while f l' else []
  | [] => []
  end.

(** [filepath.Base].  Both loops of the Go function scan from the end of the
    path, so they run here on the reversed path: the first drops the trailing
    separators, the second keeps what follows the last separator. *)
Definition Base (path : string) : string :=
  match path with
  | EmptyString => "."
  | _ =>
      let stripped := drop_while IsPathSeparator
                        (rev (list_ascii_of_string path)) in
      let last := rev (take_while (fun c => negb (IsPathSeparator c)) stripped) in
      match last with
      | [] => String Separator EmptyString
      | _ => string_of_list_ascii last
      end
  end.

(** The elements of a path: the pieces between separators. *)
Fixpoint elements (l : list ascii) : list string :=
  match l with
  | [] => [EmptyString]
  | c :: l' =>
      if IsPathSeparator c then EmptyString :: elements l'
      else match elements l' with
           | e :: es => String c e :: es
           | [] => [String c EmptyString]
           end
  end.

(** What [filepath.Clean] does with one element, on the stack of the elements
    kept so far (last one first): empty and [.] elements are dropped, a [..]
    removes the element before it when there is one to remove and is kept
    otherwise unless the path is rooted, anything else is kept. *)
Definition clean_step (rooted : bool) (kept : list string) (e : string)
  : list string :=
  if decide (e = "" ∨ e = ".") then kept
  else if decide (e = "..") then
    match kept with
    | top :: kept' =>
        if decide (top = "..") then (if rooted then kept else e :: kept)
        else kept'
    | [] => if rooted then [] else [e]
    end
  else e :: kept.

(** [filepath.Clean], element by element. *)
Definition Clean (path : string) : string :=
  match path with
  | EmptyString => "."
  | String c _ =>
      let rooted := IsPathSeparator c in
      let kept := fold_left (clean_step rooted)
                    (elements (list_ascii_of_string path)) [] in
      let out := (if rooted then String Separator EmptyString else EmptyString)
                 +:+ Strings.Join (rev kept) (String Separator EmptyString) in
      match out with
      | EmptyString => "."
      | _ => out
      end
  end.

(** [filepath.Join]: from the first non-empty element on, the elements are
    joined by the separator and the result is cleaned; the empty string when
    every element is empty. *)
Fixpoint Join (elem : list string) : string :=
  match elem with
  | [] => EmptyString
  | e :: rest =>
      match e with
      | EmptyString => Join rest
      | _ => Clean (Strings.Join elem (String Separator EmptyString))
      end
  end.

End Filepath.

(** ** os: the file system *)

Module Os.

(** [files] maps a path to the contents of the file there; [fds] maps an
    open descriptor to the path it was opened on; [next_fd] is the next
    descriptor to hand out. *)
Record world := World {
  files : gmap string (list byte);
  fds : gmap nat string;
  next_fd : nat
}.

(** What the environment makes of an I/O call that fails: the error text,
    and for a write the number of bytes that reached the file before it. *)
Inductive fault :=
  | OpenFault (msg : string)
  | WriteFault (msg : string) (n : nat).

Definition fault_msg (f : fault) : string :=
  match f with
  | OpenFault msg => msg
  | WriteFault msg _ => msg
  end.

Definition fault_written (f : fault) : nat :=
  match f with
  | OpenFault _ => 0
  | WriteFault _ n => n
  end.

(** A successful [os.Create]: the file is created or truncated, and a new
    descriptor is open on it. *)
Definition Create (name : string) (w : world) : nat * world :=
  let fd := next_fd w in
  (fd, World (<[name := []]> (files w)) (<[fd := name]> (fds w)) (S fd)).

(** [File.Write] on a descriptor that is only ever written sequentially: the
    bytes are appended.  A descriptor that is not open, or whose file has
    been removed, leaves the visible files as they are. *)
Definition Write (fd : nat) (b : list byte) (w : world) : world :=
  match fds w !! fd with
  | Some name => World (alter (fun c => c ++ b) name (files w)) (fds w) (next_fd w)
  | None => w
  end.

(** [File.Close]. *)
Definition Close (fd : nat) (w : world) : world :=
  World (files w) (delete fd (fds w)) (next_fd w).

(** A successful [os.Remove]. *)
Definition Remove (name : string) (w : world) : world :=
  World (delete name (files w)) (fds w) (next_fd w).

(** [os.WriteFile]: create or truncate, write, close.  When the open fails
    nothing changes; when the write fails the file holds what was written. *)
Definition WriteFile (name : string) (data : list byte) (flt : option fault)
    (w : world) : option string * world :=
  match flt with
  | None => (None, World (<[name := data]> (files w)) (fds w) (next_fd w))
  | Some (OpenFault msg) => (Some msg, w)
  | Some (WriteFault msg n) =>
      (Some msg, World (<[name := firstn n data]> (files w)) (fds w) (next_fd w))
  end.

End Os.

(** ** connect: codes and errors *)

Inductive Code := CodeInvalidArgument | CodeInternal | CodeDataLoss.

(** [ctx.Err()] once the context is done. *)
Inductive ctx_error := Canceled | DeadlineExceeded.

(** The errors a handler returns: [connect.NewError(code, err)] with the text
    of [err], the context's error, or whatever [stream.Err()] reports. *)
Inductive error :=
  | ConnectError (c : Code) (msg : string)
  | ContextError (e : ctx_error)
  | StreamError (msg : string).

(** ** fileuploadv1: the messages *)

Record UploadMetadata := { Filename : string; Title : string }.

(** The [oneof payload] of [UploadRequest]; [Payload_unset] is the request
    with no field of the oneof set.  A decoded metadata payload always
    carries its message. *)
Inductive Payload :=
  | UploadRequest_Metadata (Metadata : UploadMetadata)
  | UploadRequest_Chunk (Chunk : list byte)
  | UploadRequest_FinishCommit (FinishCommit : string)
  | Payload_unset.

Record UploadResponse := {
  Message : string;
  Size : Z;
  HashOk : bool
}.

Record UploadFileRequest := {
  req_Filename : string;
  req_Title : string;
  req_Sha256 : string;
  req_Data : list byte
}.

(** What a handler returns: [(resp, nil)] or [(nil, err)]. *)
Inductive result :=
  | Ok (resp : UploadResponse)
  | Err (e : error).

(** One successful [stream.Receive()], with what the environment decides
    while the message is handled: whether [ctx.Done()] is ready when it is
    polled, and whether the I/O call made for the message fails. *)
Record arrival := {
  ctx_done : option ctx_error;
  msg : Payload;
  io : option Os.fault
}.

(** ** cmd/server *)

Definition uploadDir : string := "uploads".

(** [sanitizeFilename] prevents path traversal attacks. *)
Definition sanitizeFilename (filename : string) : string :=
  let base := Filepath.Base filename in
  let base := Strings.ReplaceAll base "/" "_" in
  let base := Strings.ReplaceAll base "\" "_" in
  if decide (base = "" ∨ base = "." ∨ base = "..") then "unnamed_file"
  else base.

Definition int64 (z : Z) : Z := ((z + 2 ^ 63) mod 2 ^ 64 - 2 ^ 63)%Z.

(** The local variables of [Upload]. *)
Record locals := {
  file : option nat;
  filename : string;
  totalSize : Z;
  hasher : Sha256.digest
}.

Definition locals0 : locals :=
  {| file := None; filename := ""; totalSize := 0; hasher := Sha256.New |}.

Definition safePath (name : string) : string := Filepath.Join [uploadDir; name].

(** The loop of [Upload] over the messages the stream delivers; [serr] is
    [stream.Err()] once [Receive] has returned false.  The locals are
    returned with the result for the deferred call to run on. *)
Fixpoint Upload_loop (s : locals) (w : Os.world) (stream : list arrival)
    (serr : option error) : result * locals * Os.world :=
  match stream with
  | [] =>
      match serr with
      | Some e => (Err e, s, w)
      | None =>
          (Err (ConnectError CodeInvalidArgument "stream closed without commit"),
           s, w)
      end
  | a :: rest =>
      match ctx_done a with
      | Some ce =>
          match file s with
          | Some fd =>
              let w := Os.Close fd w in
              let w := Os.Remove (safePath (filename s)) w in
              (Err (ContextError ce), s, w)
          | None => (Err (ContextError ce), s, w)
          end
      | None =>
          match msg a with
          | UploadRequest_Metadata md =>
              match file s with
              | Some _ =>
                  (Err (ConnectError CodeInvalidArgument "metadata already received"),
                   s, w)
              | None =>
                  let name := sanitizeFilename (Filename md) in
                  match io a with
                  | Some flt =>
                      (Err (ConnectError CodeInternal (Os.fault_msg flt)),
                       {| file := None; filename := name;
                          totalSize := totalSize s; hasher := hasher s |}, w)
                  | None =>
                      let '(fd, w) := Os.Create (safePath name) w in
                      Upload_loop
                        {| file := Some fd; filename := name;
                           totalSize := totalSize s; hasher := hasher s |}
                        w rest serr
                  end
              end
          | UploadRequest_Chunk chunk =>
              match file s with
              | None =>
                  (Err (ConnectError CodeInvalidArgument "metadata must be sent first"),
                   s, w)
              | Some fd =>
                  match io a with
                  | Some flt =>
                      (Err (ConnectError CodeInternal (Os.fault_msg flt)), s,
                       Os.Write fd (firstn (Os.fault_written flt) chunk) w)
                  | None =>
                      let w := Os.Write fd chunk w in
                      Upload_loop
                        {| file := file s; filename := filename s;
                           totalSize := int64 (totalSize s + Z.of_nat (length chunk));
                           hasher := Sha256.Write (hasher s) chunk |}
                        w rest serr
                  end
              end
          | UploadRequest_FinishCommit clientHash =>
              match file s with
              | None =>
                  (Err (ConnectError CodeInvalidArgument "no file data received"),
                   s, w)
              | Some fd =>
                  let serverHash := Hex.EncodeToString (Sha256.Sum (hasher s)) in
                  if decide (serverHash ≠ clientHash) then
                    let w := Os.Close fd w in
                    let w := Os.Remove (safePath (filename s)) w in
                    (Err (ConnectError CodeDataLoss "checksum mismatch"), s, w)
                  else
                    (Ok {| Message := "Upload successful and verified";
                           Size := totalSize s;
                           HashOk := true |}, s, w)
              end
          | Payload_unset =>
              (Err (ConnectError CodeInvalidArgument "unknown message type"), s, w)
          end
      end
  end.

(** [Server.Upload]: the loop, then the deferred [file.Close()], which was
    registered if and only if [os.Create] succeeded. *)
Definition Upload (w : Os.world) (stream : list arrival) (serr : option error)
  : result * Os.world :=
  let '(r, s, w) := Upload_loop locals0 w stream serr in
  (r, match file s with
      | Some fd => Os.Close fd w
      | None => w
      end).

(** [Server.UploadFile].  [len(req.Data)] is an [int], which the conversion
    to [int64] leaves as it is. *)
Definition UploadFile (w : Os.world) (req : UploadFileRequest)
    (flt : option Os.fault) : result * Os.world :=
  let name := sanitizeFilename (req_Filename req) in
  let path := safePath name in
  let hasher := Sha256.Write Sha256.New (req_Data req) in
  let serverHash := Hex.EncodeToString (Sha256.Sum hasher) in
  let hashOk := bool_decide (serverHash = req_Sha256 req) in
  match Os.WriteFile path (req_Data req) flt w with
  | (Some e, w) => (Err (ConnectError CodeInternal e), w)
  | (None, w) =>
      (Ok {| Message := "ok";
             Size := Z.of_nat (length (req_Data req));
             HashOk := hashOk |}, w)
  end.

(** ** Vocabulary for the statements *)

Definition bytes (s : string) : list byte := list_byte_of_string s.

(** A message handled while the context is live and the I/O call made for
    it, if any, succeeds. *)
Definition deliver (p : Payload) : arrival :=
  {| ctx_done := None; msg := p; io := None |}.

Definition deliver_chunks (chunks : list (list byte)) : list arrival :=
  map (fun c => deliver (UploadRequest_Chunk c)) chunks.

(** The lowercase-hex SHA-256 of a byte sequence. *)
Definition sha256_hex (data : list byte) : string :=
  Hex.EncodeToString (Sha256.Sum256 data).

(** Where the upload of a client-supplied [name] is stored. *)
Definition resolved (name : string) : string := safePath (sanitizeFilename name).

(** Every path-separator character, forward or back slash, replaced by an
    underscore. *)
Fixpoint neutralise (s : string) : string :=
  match s with
  | EmptyString => EmptyString
  | String c s' =>
      String (if Ascii.eqb c "/" || Ascii.eqb c "\" then "_"%char else c)
             (neutralise s')
  end.

(** The fixed fallback name for an empty result and the two special names. *)
Definition fallback (s : string) : string :=
  if decide (s = "" ∨ s = "." ∨ s = "..") then "unnamed_file" else s.

(** The file system while descriptor [fd] is open on [path], which holds
    [content]: what [w] becomes when the file is created and written. *)
Definition writing (w : Os.world) (fd : nat) (path : string)
    (content : list byte) : Os.world :=
  Os.World (<[path := content]> (Os.files w)) (<[fd := path]> (Os.fds w))
           (S (Os.next_fd w)).

(** The locals of [Upload] once the metadata and the bytes [data] have been
    received. *)
Definition receiving (fd : nat) (name : string) (data : list byte) : locals :=
  {| file := Some fd; filename := name;
     totalSize := int64 (Z.of_nat (length data));
     hasher := Sha256.fed data |}.

(** ** cmd/client: the streaming Go client *)

Module GoClient.

Definition chunkSize : nat := 32 * 1024.

(** The error of the [Read] that ends the loop. *)
Inductive read_error := EOF | ReadFailed (msg : string).

(** What the file gives to the successive calls of [Read]: the data of the
    calls that return no error, then the call that returns an error, with
    the data it still delivers ([os.File] delivers none with its error). *)
Record source := {
  reads : list (list byte);
  last_read : list byte;
  last_err : read_error
}.

(** [io.TeeReader]: what was read is written to the hasher when [n > 0]. *)
Definition tee (hasher : Sha256.digest) (p : list byte) : Sha256.digest :=
  if (0 <? length p)%nat then Sha256.Write hasher p else hasher.

(** [if n > 0 { stream.Send(chunk) }]. *)
Definition send_chunk (p : list byte) : list Payload :=
  if (0 <? length p)%nat then [UploadRequest_Chunk p] else [].

(** The iterations of the read loop whose [Read] returns no error: the
    chunks sent, the hasher and [totalBytes] afterwards. *)
Fixpoint read_loop (hasher : Sha256.digest) (totalBytes : Z)
    (rs : list (list byte)) : list Payload * Sha256.digest * Z :=
  match rs with
  | [] => ([], hasher, totalBytes)
  | p :: rest =>
      let hasher := tee hasher p in
      let totalBytes :=
        if (0 <? length p)%nat then int64 (totalBytes + Z.of_nat (length p))
        else totalBytes in
      let '(sent, hasher, totalBytes) := read_loop hasher totalBytes rest in
      (send_chunk p ++ sent, hasher, totalBytes)
  end.

(** [main], with every [stream.Send] succeeding: the messages sent on the
    stream, and whether the client got as far as [CloseAndReceive] (true) or
    ended in [log.Fatal] (false).  [args] is [os.Args]; [file] is what
    [os.Open] of the path gives, [None] when it fails. *)
Definition main (args : list string) (file : option source)
  : list Payload * bool :=
  match args with
  | _ :: path :: title :: _ =>
      match file with
      | None => ([], false)
      | Some f =>
          let metadata :=
            UploadRequest_Metadata
              {| Filename := Filepath.Base path; Title := title |} in
          let '(sent, hasher, _) := read_loop Sha256.New 0 (reads f) in
          let hasher := tee hasher (last_read f) in
          let sent := metadata :: sent ++ send_chunk (last_read f) in
          match last_err f with
          | EOF =>
              let clientHash := Hex.EncodeToString (Sha256.Sum hasher) in
              (sent ++ [UploadRequest_FinishCommit clientHash], true)
          | ReadFailed _ => (sent, false)
          end
      end
  | _ => ([], false)
  end.

(** The bytes of the file. *)
Definition contents (f : source) : list byte := concat (reads f) ++ last_read f.

End GoClient.

(** ** cmd/http-upload-client: the unary browser client *)

Module Browser.

(** A [File]: its name and the bytes of its [arrayBuffer()]. *)
Record File := { name : string; data : list byte }.

(** The digits of [Number.prototype.toString(radix)]. *)
Definition digits : string := "0123456789abcdefghijklmnopqrstuvwxyz".

Definition digit (n : N) : ascii :=
  match String.get (N.to_nat n) digits with
  | Some c => c
  | None => "0"%char
  end.

(** [b.toString(16)] for a byte: no leading zero. *)
Definition toString16 (b : byte) : string :=
  let n := Byte.to_N b in
  if (n <? 16)%N then String (digit n) EmptyString
  else String (digit (n / 16)) (String (digit (n mod 16)) EmptyString).

(** [s.padStart(n, fill)] for a one-character [fill]. *)
Definition padStart (s : string) (n : nat) (fill : ascii) : string :=
  string_of_list_ascii (repeat fill (n - String.length s)) +:+ s.

(** [sha256File]: the digest of the file, two digits per byte. *)
Definition sha256File (file : File) : string :=
  Strings.Join (map (fun b => padStart (toString16 b) 2 "0")
                    (Sha256.Sum256 (data file))) "".

(** The request [uploadFile] creates. *)
Definition request (file : File) (title : string) : UploadFileRequest :=
  {| req_Filename := name file; req_Title := title;
     req_Sha256 := sha256File file; req_Data := data file |}.

Record UploadResult := {
  success : bool;
  message : string;
  size : Z;
  hashOk : bool
}.

(** [uploadFile]: [call] is [client.uploadFile], [text] the [message] of
    the error it throws. *)
Definition uploadFile (call : UploadFileRequest -> result)
    (text : error -> string) (file : File) (title : string) : UploadResult :=
  match call (request file title) with
  | Ok response =>
      {| success := true; message := Message response;
         size := Size response; hashOk := HashOk response |}
  | Err e =>
      {| success := false; message := text e; size := 0; hashOk := false |}
  end.

(** What [doUpload] leaves in the status line: which of the three texts
    (their number formatting left aside), and the class. *)
Inductive status_text :=
  | SelectFileFirst
  | UploadComplete (size : Z) (hashOk : bool)
  | UploadFailed (message : string).

(** [doUpload]: [file] is the first selected file, if any; [titleValue] the
    value of the title input. *)
Definition doUpload (call : UploadFileRequest -> result)
    (text : error -> string) (file : option File) (titleValue : string)
  : status_text * string :=
  match file with
  | None => (SelectFileFirst, "status error")
  | Some f =>
      let title := match titleValue with
                   | EmptyString => name f
                   | _ => titleValue
                   end in
      let result := uploadFile call text f title in
      if success result then
        (UploadComplete (size result) (hashOk result),
         if hashOk result then "status success" else "status warning")
      else (UploadFailed (message result), "status error")
  end.

End Browser.

(** ** The first server: every message carries name and data *)

(** [Server.Upload] as first written (it is also the streaming handler of the
    server that first had [UploadFile]).  The name is used as it comes, the
    digest is the one of the first message, and it is compared when the
    stream has ended. *)
Module V1.

Record UploadRequest := {
  Filename : string;
  Title : string;
  Sha256 : string;
  Data : list byte
}.

(** The handler returns the error of [os.Create] or of the stream as it
    is. *)
Inductive error :=
  | OsError (msg : string)
  | StreamError (msg : string).

Inductive result :=
  | Ok (resp : UploadResponse)
  | Err (e : error).

(** A received message, with what the environment decides for it: whether
    [os.Create] fails, should it be called, and whether [file.Write] fails,
    and after how many bytes.  The handler does not look at the result of
    [file.Write]. *)
Record arrival := {
  req : UploadRequest;
  create_err : option string;
  write_err : option nat
}.

Definition written (a : arrival) : list byte :=
  match write_err a with
  | Some n => firstn n (Data (req a))
  | None => Data (req a)
  end.

(** The loop and what follows it; the open descriptor is returned for the
    deferred close. *)
Fixpoint Upload_loop (file : option nat) (total : Z) (clientHash : string)
    (hasher : Sha256.digest) (w : Os.world) (stream : list arrival)
    (serr : option string) : result * option nat * Os.world :=
  match stream with
  | [] =>
      match serr with
      | Some e => (Err (StreamError e), file, w)
      | None =>
          let serverHash := Hex.EncodeToString (Sha256.Sum hasher) in
          let ok := bool_decide (serverHash = clientHash) in
          (Ok {| Message := "ok"; Size := total; HashOk := ok |}, file, w)
      end
  | a :: rest =>
      let chunk := req a in
      match file with
      | None =>
          match create_err a with
          | Some e => (Err (OsError e), None, w)
          | None =>
              let '(fd, w) := Os.Create ("uploads/" +:+ Filename chunk) w in
              let w := Os.Write fd (written a) w in
              Upload_loop (Some fd)
                (int64 (total + Z.of_nat (length (Data chunk))))
                (Sha256 chunk) (Sha256.Write hasher (Data chunk)) w rest serr
          end
      | Some fd =>
          let w := Os.Write fd (written a) w in
          Upload_loop (Some fd)
            (int64 (total + Z.of_nat (length (Data chunk))))
            clientHash (Sha256.Write hasher (Data chunk)) w rest serr
      end
  end.

Definition Upload (w : Os.world) (stream : list arrival)
    (serr : option string) : result * Os.world :=
  let '(r, file, w) := Upload_loop None 0 "" Sha256.New w stream serr in
  (r, match file with
      | Some fd => Os.Close fd w
      | None => w
      end).

(** A message received with both I/O calls succeeding. *)
Definition deliver (r : UploadRequest) : arrival :=
  {| req := r; create_err := None; write_err := None |}.

End V1.

(** ** The second server: metadata with the digest, then chunks *)

(** [Server.Upload] with the [oneof], before the commit message: the digest
    comes with the metadata and is compared when the stream has ended.
    [sanitizeFilename] is the function above. *)
Module V2.

Record FileUploadMetadata := {
  Filename : string;
  Title : string;
  Sha256 : string
}.

Inductive Content :=
  | UploadRequest_Metadata (Metadata : FileUploadMetadata)
  | UploadRequest_Chunk (Chunk : list byte)
  | Content_unset.

(** [errors.New] and the errors of [os] are returned as they are. *)
Inductive error :=
  | Plain (msg : string)
  | Context (e : ctx_error).

Inductive result :=
  | Ok (resp : UploadResponse)
  | Err (e : error).

Record arrival := {
  ctx_done : option ctx_error;
  msg : Content;
  io : option Os.fault
}.

Record locals := {
  file : option nat;
  total : Z;
  clientHash : string;
  filename : string;
  metadataReceived : bool;
  hasher : Sha256.digest
}.

Definition locals0 : locals :=
  {| file := None; total := 0; clientHash := ""; filename := "";
     metadataReceived := false; hasher := Sha256.New |}.

Fixpoint Upload_loop (s : locals) (w : Os.world) (stream : list arrival)
    (serr : option error) : result * locals * Os.world :=
  match stream with
  | [] =>
      match serr with
      | Some e => (Err e, s, w)
      | None =>
          if metadataReceived s then
            let serverHash := Hex.EncodeToString (Sha256.Sum (hasher s)) in
            let ok := bool_decide (serverHash = clientHash s) in
            (Ok {| Message := "ok"; Size := total s; HashOk := ok |}, s, w)
          else (Err (Plain "no metadata received"), s, w)
      end
  | a :: rest =>
      match ctx_done a with
      | Some ce =>
          match file s with
          | Some fd =>
              let w := Os.Close fd w in
              let w := Os.Remove (safePath (filename s)) w in
              (Err (Context ce), s, w)
          | None => (Err (Context ce), s, w)
          end
      | None =>
          match msg a with
          | UploadRequest_Metadata meta =>
              if metadataReceived s then
                (Err (Plain "metadata already received; protocol violation"),
                 s, w)
              else
                let name := sanitizeFilename (Filename meta) in
                let s := {| file := file s; total := total s;
                            clientHash := Sha256 meta; filename := name;
                            metadataReceived := true; hasher := hasher s |} in
                match io a with
                | Some flt => (Err (Plain (Os.fault_msg flt)), s, w)
                | None =>
                    let '(fd, w) := Os.Create (safePath name) w in
                    Upload_loop
                      {| file := Some fd; total := total s;
                         clientHash := clientHash s; filename := filename s;
                         metadataReceived := true; hasher := hasher s |}
                      w rest serr
                end
          | UploadRequest_Chunk chunk =>
              if negb (metadataReceived s) then
                (Err (Plain "chunk received before metadata; protocol violation"),
                 s, w)
              else
                match file s with
                | None => (Err (Plain "file not initialized"), s, w)
                | Some fd =>
                    match io a with
                    | Some flt =>
                        (Err (Plain (Os.fault_msg flt)), s,
                         Os.Write fd (firstn (Os.fault_written flt) chunk) w)
                    | None =>
                        let w := Os.Write fd chunk w in
                        Upload_loop
                          {| file := file s;
                             total := int64 (total s + Z.of_nat (length chunk));
                             clientHash := clientHash s; filename := filename s;
                             metadataReceived := metadataReceived s;
                             hasher := Sha256.Write (hasher s) chunk |}
                          w rest serr
                    end
                end
          | Content_unset => (Err (Plain "unknown message type"), s, w)
          end
      end
  end.

Definition Upload (w : Os.world) (stream : list arrival) (serr : option error)
  : result * Os.world :=
  let '(r, s, w) := Upload_loop locals0 w stream serr in
  (r, match file s with
      | Some fd => Os.Close fd w
      | None => w
      end).

Definition deliver (c : Content) : arrival :=
  {| ctx_done := None; msg := c; io := None |}.

Definition deliver_chunks (chunks : list (list byte)) : list arrival :=
  map (fun c => deliver (UploadRequest_Chunk c)) chunks.

(** The locals once the metadata and the bytes [data] have been received. *)
Definition receiving (fd : nat) (hash name : string) (data : list byte)
  : locals :=
  {| file := Some fd; total := int64 (Z.of_nat (length data));
     clientHash := hash; filename := name; metadataReceived := true;
     hasher := Sha256.fed data |}.

End V2.

(** ** The client of the second server *)

(** The metadata carries an empty digest, the chunks follow, and the stream
    is closed; the digest computed while reading is only logged. *)
Module V2Client.

Definition chunkSize : nat := 64 * 1024.

Definition send_chunk (p : list byte) : list V2.Content :=
  if (0 <? length p)%nat then [V2.UploadRequest_Chunk p] else [].

Fixpoint read_loop (hasher : Sha256.digest) (totalBytes : Z)
    (rs : list (list byte)) : list V2.Content * Sha256.digest * Z :=
  match rs with
  | [] => ([], hasher, totalBytes)
  | p :: rest =>
      let hasher := GoClient.tee hasher p in
      let totalBytes :=
        if (0 <? length p)%nat then int64 (totalBytes + Z.of_nat (length p))
        else totalBytes in
      let '(sent, hasher, totalBytes) := read_loop hasher totalBytes rest in
      (send_chunk p ++ sent, hasher, totalBytes)
  end.

(** [main], with every [stream.Send] succeeding: the messages sent, and
    whether the client got as far as [CloseAndReceive]. *)
Definition main (args : list string) (file : option GoClient.source)
  : list V2.Content * bool :=
  match args with
  | _ :: path :: title :: _ =>
      match file with
      | None => ([], false)
      | Some f =>
          let metadata :=
            V2.UploadRequest_Metadata
              {| V2.Filename := Filepath.Base path; V2.Title := title;
                 V2.Sha256 := "" |} in
          let '(sent, _, _) := read_loop Sha256.New 0 (GoClient.reads f) in
          let sent := metadata :: sent ++ send_chunk (GoClient.last_read f) in
          match GoClient.last_err f with
          | GoClient.EOF => (sent, true)
          | GoClient.ReadFailed _ => (sent, false)
          end
      end
  | _ => ([], false)
  end.

End V2Client.

(** ** The clients of the first server *)

(** The Go client: the digest is computed in a first pass over the file,
    then the file is read again and sent; the first message carries title
    and digest.  The loop ends at [io.EOF] only. *)
Module V1Client.

(** [sha256File]: [io.Copy] writes to the hasher what each read of the
    first pass delivers. *)
Definition sha256File (copied : list (list byte)) : string :=
  Hex.EncodeToString (Sha256.Sum (fold_left Sha256.Write copied Sha256.New)).

(** The read loop: [rs] are the reads that deliver data before [io.EOF]. *)
Fixpoint read_loop (name title hash : string) (first : bool)
    (rs : list (list byte)) : list V1.UploadRequest :=
  match rs with
  | [] => []
  | p :: rest =>
      if (0 <? length p)%nat then
        {| V1.Filename := name;
           V1.Title := if first then title else "";
           V1.Sha256 := if first then hash else "";
           V1.Data := p |} :: read_loop name title hash false rest
      else read_loop name title hash first rest
  end.

(** [main]: [copied] are the reads of the first pass, [rs] those of the
    second. *)
Definition main (args : list string) (copied rs : list (list byte))
  : list V1.UploadRequest :=
  match args with
  | _ :: path :: title :: _ =>
      read_loop (Filepath.Base path) title (sha256File copied) true rs
  | _ => []
  end.

End V1Client.

(** The browser client that streams ([upload.ts] as first written): the
    file is cut into slices of 64 KB, each sent with the name of the file;
    the first carries title and digest. *)
Module BrowserStream.

Definition chunkSize : nat := 64 * 1024.

(** [while (offset < data.length) { chunk = data.slice(offset, offset +
    chunkSize); offset += chunk.length; ... }], at most [fuel] times. *)
Fixpoint slices (fuel offset : nat) (data : list byte) : list (list byte) :=
  match fuel with
  | O => []
  | S fuel' =>
      if (offset <? length data)%nat then
        let chunk := firstn chunkSize (skipn offset data) in
        chunk :: slices fuel' (offset + length chunk) data
      else []
  end.

(** The requests created for the slices: [first] is true for the first. *)
Fixpoint requests (name title hash : string) (first : bool)
    (chunks : list (list byte)) : list V1.UploadRequest :=
  match chunks with
  | [] => []
  | c :: rest =>
      {| V1.Filename := name;
         V1.Title := if first then title else "";
         V1.Sha256 := if first then hash else "";
         V1.Data := c |} :: requests name title hash false rest
  end.

(** The messages [uploadFile] hands to [client.upload]. *)
Definition chunks (file : Browser.File) (title : string)
  : list V1.UploadRequest :=
  requests (Browser.name file) title (Browser.sha256File file) true
    (slices (length (Browser.data file)) 0 (Browser.data file)).

Definition uploadFile (call : list V1.UploadRequest -> V1.result)
    (text : V1.error -> string) (file : Browser.File) (title : string)
  : Browser.UploadResult :=
  match call (chunks file title) with
  | V1.Ok response =>
      {| Browser.success := true; Browser.message := Message response;
         Browser.size := Size response; Browser.hashOk := HashOk response |}
  | V1.Err e =>
      {| Browser.success := false; Browser.message := text e;
         Browser.size := 0; Browser.hashOk := false |}
  end.

Definition doUpload (call : list V1.UploadRequest -> V1.result)
    (text : V1.error -> string) (file : option Browser.File)
    (titleValue : string) : Browser.status_text * string :=
  match file with
  | None => (Browser.SelectFileFirst, "status error")
  | Some f =>
      let title := match titleValue with
                   | EmptyString => Browser.name f
                   | _ => titleValue
                   end in
      let result := uploadFile call text f title in
      if Browser.success result then
        (Browser.UploadComplete (Browser.size result) (Browser.hashOk result),
         if Browser.hashOk result then "status success" else "status warning")
      else (Browser.UploadFailed (Browser.message result), "status error")
  end.

End BrowserStream.

(** ** encoding/hex: decoding *)

Module Hex_decode.

(** [fromHexChar]: the value of a hexadecimal digit, in either case. *)
Definition fromHexChar (c : ascii) : option N :=
  let n := N_of_ascii c in
  if (48 <=? n)%N && (n <=? 57)%N then Some (n - 48)%N
  else if (97 <=? n)%N && (n <=? 102)%N then Some (n - 97 + 10)%N
  else if (65 <=? n)%N && (n <=? 70)%N then Some (n - 65 + 10)%N
  else None.

(** [hex.DecodeString]: [None] for a string of odd length or with a byte
    that is no hexadecimal digit. *)
Fixpoint DecodeString (s : string) : option (list byte) :=
  match s with
  | EmptyString => Some []
  | String _ EmptyString => None
  | String a (String b rest) =>
      match fromHexChar a, fromHexChar b, DecodeString rest with
      | Some p, Some q, Some bs =>
          match Byte.of_N (p * 16 + q) with
          | Some v => Some (v :: bs)
          | None => None
          end
      | _, _, _ => None
      end
  end.

End Hex_decode.

(** ** More vocabulary *)

(** One of the characters [0] to [9] and [a] to [f]. *)
Definition is_lower_hex (c : ascii) : bool :=
  Strings.contains_byte c Hex.hextable.

Fixpoint all_bytes (f : ascii -> bool) (s : string) : bool :=
  match s with
  | EmptyString => true
  | String c s' => f c && all_bytes f s'
  end.

(** A read that delivered something. *)
Definition nonempty (p : list byte) : bool := (0 <? length p)%nat.

(** The messages of a stream, each handled while the context is live and
    without I/O failure. *)
Definition deliver_all (sent : list Payload) : list arrival := map deliver sent.

(** A name that [sanitizeFilename] has nothing to do to. *)
Definition safe_leaf (name : string) : Prop :=
  Strings.contains_byte "/" name = false
  ∧ Strings.contains_byte "\" name = false
  ∧ name ≠ "" ∧ name ≠ "." ∧ name ≠ "..".

(** * Properties *)

Example sha256_abc :
  sha256_hex (bytes "abc")
  = "ba7816bf8f01cfea414140de5dae2223b00361a396177a9cb410ff61f20015ad".
Proof. vm_compute. reflexivity. Qed.

Example sha256_empty :
  sha256_hex []
  = "e3b0c44298fc1c149afbf4c8996fb92427ae41e4649b934ca495991b7852b855".
Proof. vm_compute. reflexivity. Qed.

Example sha256_abcdef :
  sha256_hex (bytes "abcdef")
  = "bef57ec7f53a6d40beb640a780a639c83bc29ac8a9816f1fc6c5c6dcd93c4721".
Proof. vm_compute. reflexivity. Qed.

(** 120 bytes: one whole block, 56 buffered bytes, and a padding that spills
    into a third block. *)
Example sha256_three_blocks :
  sha256_hex (repeat "a"%byte 120)
  = "2f3d335432c70b580af0e8e1b3674a7c020d683aa5f73aaaedfdc55af904c21c".
Proof. vm_compute. reflexivity. Qed.

(** [filepath.Base], [filepath.Clean] and [strings.ReplaceAll] on the inputs
    of their documentation. *)
Example Base_examples :
  map Filepath.Base ["/foo/bar/baz.js"; "/foo/bar/baz"; "/foo/bar/baz/"; "dev.txt";
                     "../todo.txt"; ".."; "."; "/"; ""; "a\b"]
  = ["baz.js"; "baz"; "baz"; "dev.txt"; "todo.txt"; ".."; "."; "/"; "."; "a\b"].
Proof. reflexivity. Qed.

Example Clean_examples :
  map Filepath.Clean ["a/c"; "a//c"; "a/c/."; "a/c/b/.."; "/../a/c";
                      "/../a/b/../././/c"; ""; "../../a/.."; "a/b/../../.."]
  = ["a/c"; "a/c"; "a/c"; "a/c"; "/a/c"; "/a/c"; "."; "../.."; ".."].
Proof. reflexivity. Qed.

Example ReplaceAll_examples :
  Strings.ReplaceAll "oink oink oink" "oink" "moo" = "moo moo moo"
  ∧ Strings.ReplaceAll "aaa" "aa" "b" = "ba"
  ∧ Strings.ReplaceAll "a/b//c" "/" "_" = "a_b__c".
Proof. repeat split; reflexivity. Qed.

Example sanitizeFilename_examples :
  map sanitizeFilename ["../../../etc/passwd"; "report.pdf"; ""; "."; "a/..";
                        "/"; "dir/"; "C:\tmp\x"]
  = ["passwd"; "report.pdf"; "unnamed_file"; "unnamed_file"; "unnamed_file";
     "_"; "dir"; "C:_tmp_x"].
Proof. reflexivity. Qed.

(** ** The incremental hasher *)

Module Sha256_facts.
Import Sha256.

Lemma full_blocks_bound n :
  n / chunk * chunk ≤ n ∧ n - n / chunk * chunk < chunk.
Proof.
  pose proof (Nat.div_mod_eq n chunk) as E.
  pose proof (Nat.mod_upper_bound n chunk) as B.
  unfold chunk in *. lia.
Qed.

Lemma block_n_app k m hs (a b : list byte) :
  length a = k * chunk →
  block_n (k + m) hs (a ++ b) = block_n m (block_n k hs a) b.
Proof.
  revert hs a. induction k as [|k IH]; intros hs a Ha.
  - destruct a; [reflexivity | discriminate].
  - cbn [Nat.add block_n].
    assert (chunk ≤ length a) by (unfold chunk in *; lia).
    rewrite take_app_le, drop_app_le by assumption.
    apply IH. rewrite length_drop. unfold chunk in *. lia.
Qed.

Lemma block_app k hs (a b : list byte) :
  length a = k * chunk → block hs (a ++ b) = block (block hs a) b.
Proof.
  intros Ha. unfold block. rewrite length_app, Ha.
  rewrite Nat.div_add_l, Nat.div_mul by (unfold chunk; lia).
  by apply block_n_app.
Qed.

Lemma block_short hs (p : list byte) : length p < chunk → block hs p = hs.
Proof. intros Hp. unfold block. by rewrite Nat.div_small. Qed.

Lemma block_take hs (p : list byte) :
  block hs (take (length p / chunk * chunk) p) = block hs p.
Proof.
  set (n := length p / chunk * chunk).
  rewrite <- (take_drop n p) at 2.
  rewrite (block_app (length p / chunk)).
  - symmetry. apply block_short. rewrite length_drop.
    apply full_blocks_bound.
  - rewrite length_take. pose proof (full_blocks_bound (length p)). lia.
Qed.

Lemma tail_of_short (p : list byte) : length p < chunk → tail_of p = p.
Proof. intros Hp. unfold tail_of. by rewrite Nat.div_small. Qed.

Lemma tail_of_app k (a b : list byte) :
  length a = k * chunk → tail_of (a ++ b) = tail_of b.
Proof.
  intros Ha. unfold tail_of. rewrite length_app, Ha.
  rewrite Nat.div_add_l by (unfold chunk; lia).
  rewrite Nat.mul_add_distr_r, <- Ha. apply drop_app_add.
Qed.

Lemma nonempty_or_nil (p : list byte) :
  (if 0 <? length p then p else []) = p.
Proof. by destruct p. Qed.

(** The second and third steps of [Write], entered with an empty buffer. *)
Lemma Write_bulk hs l (p : list byte) :
  (let '(h2, p2) :=
     if chunk <=? length p
     then (block hs (take (length p / chunk * chunk) p),
           drop (length p / chunk * chunk) p)
     else (hs, p) in
   Digest h2 (if 0 <? length p2 then p2 else []) l)
  = Digest (block hs p) (tail_of p) l.
Proof.
  destruct (Nat.leb_spec chunk (length p)) as [Hp|Hp].
  - rewrite nonempty_or_nil. by rewrite block_take.
  - rewrite nonempty_or_nil. by rewrite block_short, tail_of_short.
Qed.

(** What [Write] leaves behind: the whole blocks of buffer-then-input are
    compressed, the rest is buffered. *)
Lemma Write_spec d p :
  length (x d) < chunk →
  Sha256.Write d p
  = Digest (block (h d) (x d ++ p)) (tail_of (x d ++ p))
           (u64 (len d + Z.of_nat (length p))).
Proof.
  destruct d as [hs xs l]. cbn [x h len]. intros Hx.
  unfold Write. cbn [x h len].
  destruct xs as [|b xs'].
  { change (0 <? length (@nil byte)) with false. cbn iota. apply Write_bulk. }
  set (xs := b :: xs') in *.
  assert (0 < length xs) as Hpos by (unfold xs; cbn; lia).
  apply Nat.ltb_lt in Hpos as ->.
  destruct (Nat.le_gt_cases (chunk - length xs) (length p)) as [Hfill|Hfill].
  - rewrite Nat.min_l by assumption.
    set (n := chunk - length xs).
    assert (length (xs ++ take n p) = 1 * chunk) as Hfull.
    { rewrite length_app, length_take. unfold n. lia. }
    replace (length (xs ++ take n p) =? chunk) with true
      by (symmetry; apply Nat.eqb_eq; lia).
    rewrite Write_bulk.
    replace (xs ++ p) with ((xs ++ take n p) ++ drop n p)
      by (by rewrite <- (assoc_L (++)), take_drop).
    by rewrite (block_app 1 hs _ (drop n p) Hfull),
               (tail_of_app 1 _ (drop n p) Hfull).
  - rewrite Nat.min_r, take_ge, drop_all by lia.
    assert (length (xs ++ p) < chunk) as Hshort by (rewrite length_app; lia).
    replace (length (xs ++ p) =? chunk) with false
      by (symmetry; apply Nat.eqb_neq; lia).
    change (chunk <=? length (@nil byte)) with false.
    change (0 <? length (@nil byte)) with false. cbn iota.
    by rewrite block_short, tail_of_short.
Qed.

Lemma tail_of_length (bs : list byte) : length (tail_of bs) < chunk.
Proof. unfold tail_of. rewrite length_drop. apply full_blocks_bound. Qed.

Lemma New_fed : New = fed [].
Proof. reflexivity. Qed.

Lemma Write_fed bs p : Write (fed bs) p = fed (bs ++ p).
Proof.
  rewrite Write_spec by apply tail_of_length.
  unfold fed. cbn [h x len].
  set (n := length bs / chunk * chunk).
  assert (length (take n bs) = length bs / chunk * chunk) as Hn.
  { rewrite length_take. pose proof (full_blocks_bound (length bs)).
    unfold n. lia. }
  f_equal.
  - rewrite <- (block_take init bs). fold n.
    rewrite <- (block_app _ _ _ _ Hn).
    unfold tail_of. fold n. by rewrite (assoc_L (++)), take_drop.
  - rewrite <- (tail_of_app _ (take n bs) _ Hn).
    unfold tail_of at 2. fold n. by rewrite (assoc_L (++)), take_drop.
  - unfold u64. rewrite length_app, Nat2Z.inj_add.
    by rewrite Zplus_mod_idemp_l.
Qed.

Lemma fold_Write_fed chunks bs :
  fold_left Write chunks (fed bs) = fed (bs ++ concat chunks).
Proof.
  revert bs. induction chunks as [|c chunks IH]; intros bs; cbn.
  - by rewrite app_nil_r.
  - by rewrite Write_fed, IH, (assoc_L (++)).
Qed.

End Sha256_facts.

(** C2. For every list of chunks, writing the chunks to a fresh hasher one
    after the other and then taking the sum gives the digest of their
    concatenation written as one chunk: the incremental digest depends only
    on the bytes in the order received, not on how they were split. *)
Theorem incremental_digest_is_chunking_invariant (chunks : list (list byte)) :
  Sha256.Sum (fold_left Sha256.Write chunks Sha256.New)
  = Sha256.Sum (Sha256.Write Sha256.New (concat chunks)).
Proof.
  rewrite Sha256_facts.New_fed.
  rewrite Sha256_facts.fold_Write_fed, Sha256_facts.Write_fed.
  reflexivity.
Qed.

Lemma incremental_digest_is_chunking_invariant_witness :
  Sha256.Sum (fold_left Sha256.Write [bytes "ab"; []; bytes "cde"; bytes "f"]
                Sha256.New)
  = Sha256.Sum (Sha256.Write Sha256.New (bytes "abcdef")).
Proof.
  exact (incremental_digest_is_chunking_invariant
           [bytes "ab"; []; bytes "cde"; bytes "f"]).
Defined.


(** ** Filename sanitisation *)

Module Sanitize_facts.
Import Strings Filepath.

Lemma app_one (c : ascii) (s : string) : String c "" +:+ s = String c s.
Proof. reflexivity. Qed.

Lemma prefix_empty (s : string) : String.prefix "" s = true.
Proof. by destruct s. Qed.

Lemma replace_slashes (s : string) :
  ReplaceAll (ReplaceAll s "/" "_") "\" "_" = neutralise s.
Proof.
  unfold ReplaceAll. induction s as [|a s IH]; [reflexivity|].
  cbn [replace_from String.prefix String.length Nat.sub neutralise].
  destruct (Ascii.ascii_dec "/" a) as [<-|Hs].
  - rewrite prefix_empty, app_one.
    cbn [replace_from String.prefix String.length Nat.sub].
    destruct (Ascii.ascii_dec "\" "_") as [?|_]; [done|].
    by rewrite IH.
  - cbn [replace_from String.prefix String.length Nat.sub].
    destruct (Ascii.ascii_dec "\" a) as [<-|Hb].
    + rewrite prefix_empty, app_one, IH. reflexivity.
    + rewrite IH.
      apply Ascii.eqb_neq in Hs, Hb.
      rewrite Ascii.eqb_sym in Hs. rewrite Ascii.eqb_sym in Hb.
      by rewrite Hs, Hb.
Qed.

Lemma sanitizeFilename_eq (s : string) :
  sanitizeFilename s = fallback (neutralise (Base s)).
Proof. unfold sanitizeFilename, fallback. by rewrite replace_slashes. Qed.

Lemma neutralise_no_separator (c : ascii) (s : string) :
  c = "/"%char ∨ c = "\"%char → contains_byte c (neutralise s) = false.
Proof.
  intros Hc. induction s as [|a s IH]; [reflexivity|].
  cbn [neutralise contains_byte]. rewrite IH, orb_false_r.
  destruct (Ascii.eqb_spec a "/") as [->|Hs]; cbn [orb].
  { by destruct Hc as [->| ->]. }
  destruct (Ascii.eqb_spec a "\") as [->|Hb]; cbn [orb].
  { by destruct Hc as [->| ->]. }
  apply Ascii.eqb_neq. by destruct Hc as [->| ->].
Qed.

Lemma fallback_no_separator (c : ascii) (s : string) :
  c = "/"%char ∨ c = "\"%char →
  contains_byte c s = false → contains_byte c (fallback s) = false.
Proof.
  intros Hc Hs. unfold fallback. case_decide; [|done].
  by destruct Hc as [->| ->].
Qed.

Lemma fallback_not_special (s : string) :
  fallback s ≠ "" ∧ fallback s ≠ "." ∧ fallback s ≠ "..".
Proof. unfold fallback. case_decide; [done|tauto]. Qed.

Lemma list_ascii_of_string_app (a b : string) :
  list_ascii_of_string (a +:+ b)
  = list_ascii_of_string a ++ list_ascii_of_string b.
Proof.
  induction a as [|c a IH]; [reflexivity|].
  change (String c a +:+ b) with (String c (a +:+ b)). cbn. by rewrite IH.
Qed.

Lemma no_separator_Forall (s : string) :
  contains_byte "/" s = false →
  Forall (fun c => IsPathSeparator c = false) (list_ascii_of_string s).
Proof.
  induction s as [|c s IH]; cbn; [constructor|].
  intros [Hc Hs]%orb_false_elim. constructor; [exact Hc | by apply IH].
Qed.

Lemma drop_while_head f (l : list ascii) c :
  head l = Some c → f c = false → drop_while f l = l.
Proof. destruct l as [|c' l]; [done|]. intros [= ->] Hc. cbn. by rewrite Hc. Qed.

Lemma take_while_segment (l k : list ascii) :
  Forall (fun c => IsPathSeparator c = false) l →
  take_while (fun c => negb (IsPathSeparator c)) (l ++ Separator :: k) = l.
Proof.
  induction 1 as [|c l Hc _ IH]; cbn.
  - reflexivity.
  - by rewrite Hc, IH.
Qed.

Lemma take_while_all (l : list ascii) :
  Forall (fun c => IsPathSeparator c = false) l →
  take_while (fun c => negb (IsPathSeparator c)) l = l.
Proof.
  induction 1 as [|c l Hc _ IH]; cbn; [reflexivity|]. by rewrite Hc, IH.
Qed.

Lemma rev_leaf_head (l : list ascii) :
  l ≠ [] → Forall (fun c => IsPathSeparator c = false) l →
  ∃ c, head (rev l) = Some c ∧ IsPathSeparator c = false.
Proof.
  intros Hne Hl. apply Forall_rev in Hl.
  destruct (rev l) as [|c r] eqn:E.
  - apply (f_equal (@length _)) in E. rewrite length_rev in E.
    by destruct l.
  - exists c. split; [done|]. by inversion Hl.
Qed.

(** The last element of a path whose last element is [leaf]. *)
Lemma Base_leaf (dir leaf : string) :
  leaf ≠ "" → contains_byte "/" leaf = false →
  Base (dir +:+ "/" +:+ leaf) = leaf ∧ Base leaf = leaf.
Proof.
  intros Hne Hleaf.
  pose proof (no_separator_Forall _ Hleaf) as Hl.
  assert (list_ascii_of_string leaf ≠ []) as Hlne by (by destruct leaf).
  destruct (rev_leaf_head _ Hlne Hl) as (c & Hhd & Hc).
  assert (∀ p : string, p ≠ "" →
          drop_while IsPathSeparator (rev (list_ascii_of_string p))
            = rev (list_ascii_of_string p) →
          (∃ k, rev (list_ascii_of_string p)
                = rev (list_ascii_of_string leaf) ++ k
                ∧ (k = [] ∨ ∃ k', k = Separator :: k')) →
          Base p = leaf) as Hbase.
  { intros p Hp Hdrop (k & Hk & Hsep). unfold Base.
    destruct p as [|a p]; [done|]. rewrite Hdrop, Hk.
    assert (take_while (fun c => negb (IsPathSeparator c))
              (rev (list_ascii_of_string leaf) ++ k)
            = rev (list_ascii_of_string leaf)) as ->.
    { destruct Hsep as [->|[k' ->]].
      - rewrite app_nil_r. apply take_while_all. by apply Forall_rev.
      - apply take_while_segment. by apply Forall_rev. }
    rewrite rev_involutive.
    destruct (list_ascii_of_string leaf) eqn:E; [done|].
    rewrite <- E. apply string_of_list_ascii_of_string. }
  split.
  - apply Hbase.
    + by destruct dir.
    + rewrite !list_ascii_of_string_app, !rev_app_distr.
      apply (drop_while_head _ _ c); [|done].
      destruct (rev (list_ascii_of_string leaf)); [done|]. exact Hhd.
    + exists (Separator :: rev (list_ascii_of_string dir)). split; [|eauto].
      rewrite !list_ascii_of_string_app, !rev_app_distr.
      by rewrite <- (assoc_L (++)).
  - apply Hbase; [done| |].
    + by apply (drop_while_head _ _ c).
    + exists []. split; [by rewrite app_nil_r | by left].
Qed.

End Sanitize_facts.

(** C4. Whatever the input, the name [sanitizeFilename] returns contains
    neither a forward slash nor a back slash, and is neither empty nor one
    of the special names [.] and [..]. *)
Theorem sanitizeFilename_is_a_safe_leaf (name : string) :
  Strings.contains_byte "/" (sanitizeFilename name) = false
  ∧ Strings.contains_byte "\" (sanitizeFilename name) = false
  ∧ sanitizeFilename name ≠ ""
  ∧ sanitizeFilename name ≠ "."
  ∧ sanitizeFilename name ≠ "..".
Proof.
  rewrite Sanitize_facts.sanitizeFilename_eq.
  split; [|split].
  - apply Sanitize_facts.fallback_no_separator; [by left|].
    apply Sanitize_facts.neutralise_no_separator. by left.
  - apply Sanitize_facts.fallback_no_separator; [by right|].
    apply Sanitize_facts.neutralise_no_separator. by right.
  - apply Sanitize_facts.fallback_not_special.
Qed.

Lemma sanitizeFilename_is_a_safe_leaf_witness :
  Strings.contains_byte "/" (sanitizeFilename "..\../") = false
  ∧ Strings.contains_byte "\" (sanitizeFilename "..\../") = false
  ∧ sanitizeFilename "..\../" ≠ ""
  ∧ sanitizeFilename "..\../" ≠ "."
  ∧ sanitizeFilename "..\../" ≠ "..".
Proof. exact (sanitizeFilename_is_a_safe_leaf "..\../"). Defined.

(** C5, as the code has it on a Unix-like server.  For every input the
    name is the last element of the path, with every forward and back slash
    left in it replaced by an underscore, and with the fixed name
    [unnamed_file] in place of an empty result, [.] and [..].  The elements
    of a path are separated by forward slashes only: directory components
    written with forward slashes are discarded, while a back slash is an
    ordinary character of an element and is replaced, not split at. *)
Theorem sanitizeFilename_keeps_last_element (name dir leaf : string) :
  sanitizeFilename name = fallback (neutralise (Filepath.Base name))
  ∧ (leaf ≠ "" →
     Strings.contains_byte "/" leaf = false →
     sanitizeFilename (dir +:+ "/" +:+ leaf) = fallback (neutralise leaf)
     ∧ sanitizeFilename leaf = fallback (neutralise leaf)).
Proof.
  split; [apply Sanitize_facts.sanitizeFilename_eq|].
  intros Hne Hleaf.
  destruct (Sanitize_facts.Base_leaf dir leaf Hne Hleaf) as [Hd Hl].
  rewrite !Sanitize_facts.sanitizeFilename_eq. by rewrite Hd, Hl.
Qed.

Lemma sanitizeFilename_keeps_last_element_witness :
  sanitizeFilename "../../etc/pass\wd" = "pass_wd"
  ∧ sanitizeFilename "pass\wd" = "pass_wd".
Proof.
  apply (sanitizeFilename_keeps_last_element "" "../../etc" "pass\wd").
  - discriminate.
  - reflexivity.
Defined.

(** C5, as stated, fails for directory components written with back
    slashes: they are kept, with the back slashes replaced. *)
Lemma backslash_directories_are_kept :
  sanitizeFilename "..\..\x" = ".._.._x" ∧ sanitizeFilename "..\..\x" ≠ "x".
Proof. split; [reflexivity | discriminate]. Qed.

(** ** The resolved path *)

Module Path_facts.
Import Strings Filepath.

Lemma elements_leaf (s : string) :
  contains_byte "/" s = false →
  elements (list_ascii_of_string s) = [s].
Proof.
  induction s as [|c s IH]; [reflexivity|].
  cbn [contains_byte list_ascii_of_string elements].
  intros [Hc Hs]%orb_false_elim.
  unfold IsPathSeparator, Separator. by rewrite Hc, IH.
Qed.

Lemma elements_dir (d : string) (l : list ascii) :
  contains_byte "/" d = false →
  elements (list_ascii_of_string d ++ Separator :: l) = d :: elements l.
Proof.
  induction d as [|c d IH]; [reflexivity|].
  cbn [contains_byte list_ascii_of_string elements app].
  intros [Hc Hs]%orb_false_elim.
  unfold IsPathSeparator, Separator at 1. by rewrite Hc, IH.
Qed.

(** Under the upload directory, a safe leaf is stored under its own name. *)
Lemma safePath_leaf (name : string) :
  contains_byte "/" name = false →
  name ≠ "" → name ≠ "." → name ≠ ".." →
  safePath name = "uploads/" +:+ name.
Proof.
  intros Hsep H0 H1 H2. unfold safePath, uploadDir.
  cbn [Filepath.Join Strings.Join].
  remember ("uploads" +:+ String Separator "" +:+ name) as p eqn:Hp.
  assert (elements (list_ascii_of_string p) = ["uploads"; name]) as Hel.
  { subst p. rewrite !Sanitize_facts.list_ascii_of_string_app.
    cbn [list_ascii_of_string app].
    change ("u" :: "p" :: "l" :: "o" :: "a" :: "d" :: "s" :: Separator
            :: list_ascii_of_string name)%char
      with (list_ascii_of_string "uploads"
            ++ Separator :: list_ascii_of_string name).
    rewrite elements_dir by reflexivity. by rewrite elements_leaf. }
  assert (p = String "u" ("ploads/" +:+ name)) as Hhead by (by subst p).
  unfold Clean. rewrite Hel. rewrite Hhead at 1.
  change (IsPathSeparator "u") with false.
  cbn [fold_left]. unfold clean_step.
  rewrite (decide_False (P := "uploads" = "" ∨ "uploads" = "."))
    by (intros [?|?]; discriminate).
  rewrite (decide_False (P := "uploads" = "..")) by discriminate.
  rewrite (decide_False (P := name = "" ∨ name = ".")) by tauto.
  rewrite (decide_False (P := name = "..")) by done.
  reflexivity.
Qed.

(** Every upload is stored directly under the upload directory. *)
Lemma resolved_under_root (name : string) :
  resolved name = "uploads/" +:+ sanitizeFilename name.
Proof.
  unfold resolved. rewrite Sanitize_facts.sanitizeFilename_eq.
  pose proof (Sanitize_facts.fallback_not_special
                (neutralise (Base name))) as (H0 & H1 & H2).
  apply safePath_leaf; [|done..].
  apply Sanitize_facts.fallback_no_separator; [by left|].
  apply Sanitize_facts.neutralise_no_separator. by left.
Qed.

End Path_facts.

Example resolved_traversal : resolved "../../etc/passwd" = "uploads/passwd".
Proof. reflexivity. Qed.


(** ** The streaming handler *)

Module Upload_facts.
Import Sha256_facts.

Lemma int64_add (a b : Z) : int64 (int64 a + b) = int64 (a + b).
Proof.
  unfold int64. f_equal.
  replace ((a + 2 ^ 63) mod 2 ^ 64 - 2 ^ 63 + b + 2 ^ 63)%Z
    with ((a + 2 ^ 63) mod 2 ^ 64 + b)%Z by lia.
  rewrite Zplus_mod_idemp_l. f_equal. lia.
Qed.

Lemma int64_small (z : Z) : (0 ≤ z < 2 ^ 63)%Z → int64 z = z.
Proof. intros Hz. unfold int64. rewrite Z.mod_small; lia. Qed.

Lemma length_concat_sum (chunks : list (list byte)) :
  length (concat chunks) = sum_list (map length chunks).
Proof.
  induction chunks as [|c chunks IH]; [reflexivity|].
  cbn. by rewrite length_app, IH.
Qed.

Lemma Sum256_fed (data : list byte) :
  Sha256.Sum256 data = Sha256.Sum (Sha256.fed data).
Proof. unfold Sha256.Sum256. by rewrite New_fed, Write_fed. Qed.

Lemma Create_writing (w : Os.world) (path : string) :
  Os.Create path w = (Os.next_fd w, writing w (Os.next_fd w) path []).
Proof. reflexivity. Qed.

Lemma Write_writing w fd path content (c : list byte) :
  Os.Write fd c (writing w fd path content) = writing w fd path (content ++ c).
Proof.
  unfold Os.Write, writing. cbn [Os.fds Os.files Os.next_fd].
  by rewrite lookup_insert_eq, alter_insert_eq.
Qed.

Lemma loop_chunks chunks : ∀ w fd name data rest serr,
  Upload_loop (receiving fd name data) (writing w fd (safePath name) data)
    (deliver_chunks chunks ++ rest) serr
  = Upload_loop (receiving fd name (data ++ concat chunks))
      (writing w fd (safePath name) (data ++ concat chunks)) rest serr.
Proof.
  induction chunks as [|c chunks IH]; intros w fd name data rest serr.
  - cbn [deliver_chunks map app concat]. by rewrite app_nil_r.
  - cbn [deliver_chunks map app concat Upload_loop deliver ctx_done msg io
         receiving file filename totalSize hasher].
    rewrite Write_writing, Write_fed, int64_add, <- Nat2Z.inj_add, <- length_app.
    rewrite (assoc_L (++)). apply IH.
Qed.

(** The handler has received the metadata and the chunks: the file holds
    the chunks in order, the counter their total length, the hasher their
    bytes. *)
Lemma loop_metadata_chunks w md chunks rest serr :
  Upload_loop locals0 w
    (deliver (UploadRequest_Metadata md) :: deliver_chunks chunks ++ rest) serr
  = Upload_loop
      (receiving (Os.next_fd w) (sanitizeFilename (Filename md)) (concat chunks))
      (writing w (Os.next_fd w) (resolved (Filename md)) (concat chunks))
      rest serr.
Proof.
  cbn [Upload_loop deliver ctx_done msg io locals0 file filename totalSize
       hasher].
  rewrite Create_writing.
  apply (loop_chunks chunks w _ _ []).
Qed.

Lemma close_remove_writing w fd path content :
  Os.Close fd (Os.Remove path (Os.Close fd (writing w fd path content)))
  = Os.World (delete path (Os.files w)) (delete fd (Os.fds w))
             (S (Os.next_fd w)).
Proof.
  unfold Os.Close, Os.Remove, writing. cbn [Os.files Os.fds Os.next_fd].
  f_equal.
  - by rewrite delete_insert_eq.
  - by rewrite delete_insert_eq, delete_delete_eq.
Qed.

(** A success comes out of the commit branch only. *)
Lemma loop_success stream : ∀ s w serr resp s' w',
  Upload_loop s w stream serr = (Ok resp, s', w') →
  HashOk resp = true
  ∧ ∃ a h, a ∈ stream ∧ msg a = UploadRequest_FinishCommit h.
Proof.
  induction stream as [|a rest IH]; intros s w serr resp s' w' Hrun.
  - cbn [Upload_loop] in Hrun. by destruct serr.
  - cbn [Upload_loop] in Hrun.
    assert (∀ s1 w1, Upload_loop s1 w1 rest serr = (Ok resp, s', w') →
            HashOk resp = true
            ∧ ∃ a0 h, a0 ∈ a :: rest ∧ msg a0 = UploadRequest_FinishCommit h)
      as Hrest.
    { intros s1 w1 H1. destruct (IH _ _ _ _ _ _ H1) as (Hok & a0 & h & Hin & Hm).
      split; [done|]. exists a0, h. split; [by right | done]. }
    destruct (ctx_done a); [by destruct (file s)|].
    destruct (msg a) as [md|c|h|] eqn:Hmsg.
    + destruct (file s); [done|]. destruct (io a); [done|].
      rewrite Create_writing in Hrun. eauto.
    + destruct (file s); [|done]. destruct (io a); [done|]. eauto.
    + destruct (file s); [|done]. case_decide; [done|].
      injection Hrun as <- _ _. split; [done|].
      exists a, h. split; [by left | done].
    + done.
Qed.

(** An error of the stream itself, reported once [Receive] has returned
    false, is passed on as it is: only the deferred close runs, and the file
    stays with what was written. *)
Lemma stream_error_is_passed_on w md chunks e :
  Upload w (deliver (UploadRequest_Metadata md) :: deliver_chunks chunks)
    (Some e)
  = (Err e,
     Os.World (<[resolved (Filename md) := concat chunks]> (Os.files w))
              (delete (Os.next_fd w) (Os.fds w)) (S (Os.next_fd w))).
Proof.
  unfold Upload. rewrite <- (app_nil_r (deliver_chunks chunks)).
  rewrite loop_metadata_chunks.
  cbn [Upload_loop receiving file]. unfold Os.Close, writing.
  cbn [Os.files Os.fds Os.next_fd]. by rewrite delete_insert_eq.
Qed.

End Upload_facts.

Local Opaque sanitizeFilename safePath Sha256.Sum Sha256.Write Hex.EncodeToString.

(** C1. A session has received its metadata and any chunks, and the commit
    message claims a digest that is not the lowercase-hex SHA-256 of the
    chunks.  Then the handler returns the error [CodeDataLoss], which is not
    the [CodeInternal] of an I/O failure and not a response; the file at the
    resolved path is gone and the descriptor is closed. *)
Theorem digest_mismatch_deletes_the_upload
    (w : Os.world) (md : UploadMetadata) (chunks : list (list byte))
    (clientHash : string) (flt : option Os.fault) (rest : list arrival)
    (serr : option error) :
  clientHash ≠ sha256_hex (concat chunks) →
  ∃ w',
    Upload w
      (deliver (UploadRequest_Metadata md) :: deliver_chunks chunks
       ++ {| ctx_done := None; msg := UploadRequest_FinishCommit clientHash;
             io := flt |} :: rest) serr
    = (Err (ConnectError CodeDataLoss "checksum mismatch"), w')
    ∧ Os.files w' !! resolved (Filename md) = None
    ∧ Os.fds w' !! Os.next_fd w = None
    ∧ ∀ m, ConnectError CodeDataLoss "checksum mismatch"
           ≠ ConnectError CodeInternal m.
Proof.
  intros Hne. unfold Upload.
  rewrite Upload_facts.loop_metadata_chunks.
  cbn [Upload_loop ctx_done msg io receiving file filename
       totalSize hasher].
  rewrite <- Upload_facts.Sum256_fed. fold (sha256_hex (concat chunks)).
  rewrite decide_True by congruence.
  cbn [receiving file]. fold (resolved (Filename md)).
  rewrite Upload_facts.close_remove_writing.
  eexists. split; [reflexivity|]. cbn [Os.files Os.fds].
  by rewrite !lookup_delete_eq.
Qed.

Lemma digest_mismatch_deletes_the_upload_witness :
  ∃ w',
    Upload (Os.World ∅ ∅ 0)
      [ deliver (UploadRequest_Metadata
                   {| Filename := "report.pdf"; Title := "Q1" |});
        deliver (UploadRequest_Chunk (bytes "abc"));
        deliver (UploadRequest_Chunk (bytes "def"));
        deliver (UploadRequest_FinishCommit (sha256_hex (bytes "abcdex"))) ]
      None
    = (Err (ConnectError CodeDataLoss "checksum mismatch"), w')
    ∧ Os.files w' !! resolved "report.pdf" = None
    ∧ Os.fds w' !! 0 = None
    ∧ ∀ m, ConnectError CodeDataLoss "checksum mismatch"
           ≠ ConnectError CodeInternal m.
Proof.
  apply (digest_mismatch_deletes_the_upload (Os.World ∅ ∅ 0)
           {| Filename := "report.pdf"; Title := "Q1" |}
           [bytes "abc"; bytes "def"] (sha256_hex (bytes "abcdex")) None []
           None).
  vm_compute. discriminate.
Defined.

(** C3. A session receives its metadata, then chunks, then a commit message
    whose digest is the lowercase-hex SHA-256 of the chunks put together.
    Then the handler answers with [Size] the sum of the lengths of the
    chunks and [HashOk] true, the file at the resolved path holds exactly
    the chunks in the order received, and the descriptor is closed.  The
    sum of the lengths is taken to fit the [int64] counter. *)
Theorem verified_upload_is_stored
    (w : Os.world) (md : UploadMetadata) (chunks : list (list byte))
    (flt : option Os.fault) (rest : list arrival) (serr : option error) :
  (Z.of_nat (sum_list (map length chunks)) < 2 ^ 63)%Z →
  ∃ w',
    Upload w
      (deliver (UploadRequest_Metadata md) :: deliver_chunks chunks
       ++ {| ctx_done := None;
             msg := UploadRequest_FinishCommit (sha256_hex (concat chunks));
             io := flt |} :: rest) serr
    = (Ok {| Message := "Upload successful and verified";
             Size := Z.of_nat (sum_list (map length chunks));
             HashOk := true |}, w')
    ∧ Os.files w' !! resolved (Filename md) = Some (concat chunks)
    ∧ Os.fds w' !! Os.next_fd w = None.
Proof.
  intros Hfit. unfold Upload.
  rewrite Upload_facts.loop_metadata_chunks.
  cbn [Upload_loop ctx_done msg io receiving file filename
       totalSize hasher].
  rewrite <- Upload_facts.Sum256_fed. fold (sha256_hex (concat chunks)).
  rewrite decide_False by (intros H; by apply H).
  rewrite Upload_facts.length_concat_sum.
  rewrite Upload_facts.int64_small by lia.
  eexists. split; [reflexivity|].
  cbn [receiving file].
  unfold Os.Close, writing. cbn [Os.files Os.fds].
  by rewrite lookup_insert_eq, lookup_delete_eq.
Qed.

Lemma verified_upload_is_stored_witness :
  ∃ w',
    Upload (Os.World ∅ ∅ 0)
      [ deliver (UploadRequest_Metadata
                   {| Filename := "report.pdf"; Title := "Q1" |});
        deliver (UploadRequest_Chunk (bytes "abc"));
        deliver (UploadRequest_Chunk (bytes "def"));
        deliver (UploadRequest_FinishCommit (sha256_hex (bytes "abcdef"))) ]
      None
    = (Ok {| Message := "Upload successful and verified";
             Size := 6; HashOk := true |}, w')
    ∧ Os.files w' !! resolved "report.pdf" = Some (bytes "abcdef")
    ∧ Os.fds w' !! 0 = None.
Proof.
  apply (verified_upload_is_stored (Os.World ∅ ∅ 0)
           {| Filename := "report.pdf"; Title := "Q1" |}
           [bytes "abc"; bytes "def"] None [] None).
  vm_compute. reflexivity.
Defined.

(** C6, as the code has it.  A second metadata message, or a message with
    none of the three payloads, that arrives after the metadata and any
    chunks ends the session with the error [CodeInvalidArgument]; the
    descriptor is closed, and the file stays at the resolved path with the
    chunks written so far. *)
Theorem protocol_violation_keeps_the_partial_file
    (w : Os.world) (md md' : UploadMetadata) (chunks : list (list byte))
    (flt : option Os.fault) (rest : list arrival) (serr : option error) :
  let kept :=
    Os.World (<[resolved (Filename md) := concat chunks]> (Os.files w))
             (delete (Os.next_fd w) (Os.fds w)) (S (Os.next_fd w)) in
  Upload w
    (deliver (UploadRequest_Metadata md) :: deliver_chunks chunks
     ++ {| ctx_done := None; msg := UploadRequest_Metadata md'; io := flt |}
        :: rest) serr
  = (Err (ConnectError CodeInvalidArgument "metadata already received"), kept)
  ∧ Upload w
      (deliver (UploadRequest_Metadata md) :: deliver_chunks chunks
       ++ {| ctx_done := None; msg := Payload_unset; io := flt |} :: rest) serr
    = (Err (ConnectError CodeInvalidArgument "unknown message type"), kept)
  ∧ Os.files kept !! resolved (Filename md) = Some (concat chunks)
  ∧ Os.fds kept !! Os.next_fd w = None.
Proof.
  intros kept. unfold Upload.
  rewrite !Upload_facts.loop_metadata_chunks.
  cbn [Upload_loop ctx_done msg io receiving file].
  unfold Os.Close, writing, kept. cbn [Os.files Os.fds Os.next_fd].
  rewrite delete_insert_eq, lookup_insert_eq, lookup_delete_eq. done.
Qed.

Lemma protocol_violation_keeps_the_partial_file_witness :
  let kept := Os.World (<[resolved "a.txt" := bytes "abc"]> ∅) (delete 0 ∅) 1 in
  Upload (Os.World ∅ ∅ 0)
    [ deliver (UploadRequest_Metadata {| Filename := "a.txt"; Title := "" |});
      deliver (UploadRequest_Chunk (bytes "abc"));
      deliver (UploadRequest_Metadata {| Filename := "b.txt"; Title := "" |}) ]
    None
  = (Err (ConnectError CodeInvalidArgument "metadata already received"), kept)
  ∧ Upload (Os.World ∅ ∅ 0)
      [ deliver (UploadRequest_Metadata {| Filename := "a.txt"; Title := "" |});
        deliver (UploadRequest_Chunk (bytes "abc"));
        deliver Payload_unset ]
      None
    = (Err (ConnectError CodeInvalidArgument "unknown message type"), kept)
  ∧ Os.files kept !! resolved "a.txt" = Some (bytes "abc")
  ∧ Os.fds kept !! 0 = None.
Proof.
  exact (protocol_violation_keeps_the_partial_file (Os.World ∅ ∅ 0)
           {| Filename := "a.txt"; Title := "" |}
           {| Filename := "b.txt"; Title := "" |}
           [bytes "abc"] None [] None).
Defined.

(** C6, as stated, fails: after a duplicate metadata message the file
    created for the first one is still there. *)
Lemma duplicate_metadata_leaves_the_file :
  let '(r, w') :=
    Upload (Os.World ∅ ∅ 0)
      [ deliver (UploadRequest_Metadata {| Filename := "a.txt"; Title := "" |});
        deliver (UploadRequest_Chunk (bytes "abc"));
        deliver (UploadRequest_Metadata {| Filename := "b.txt"; Title := "" |}) ]
      None in
  r = Err (ConnectError CodeInvalidArgument "metadata already received")
  ∧ Os.files w' !! "uploads/a.txt" = Some (bytes "abc").
Proof. vm_compute. split; reflexivity. Qed.

(** C7, as the code has it.  A unary upload whose claimed digest is not the
    lowercase-hex SHA-256 of the payload is stored all the same: when the
    write succeeds the handler answers with the message [ok], [Size] the
    length of the payload and [HashOk] false, and the file at the resolved
    path holds the payload.  Nothing is deleted and no error is returned. *)
Theorem unary_mismatch_is_reported_in_HashOk
    (w : Os.world) (req : UploadFileRequest) :
  req_Sha256 req ≠ sha256_hex (req_Data req) →
  ∃ w',
    UploadFile w req None
    = (Ok {| Message := "ok";
             Size := Z.of_nat (length (req_Data req));
             HashOk := false |}, w')
    ∧ Os.files w' !! resolved (req_Filename req) = Some (req_Data req).
Proof.
  intros Hne. unfold UploadFile, Os.WriteFile.
  eexists. split.
  - rewrite bool_decide_eq_false_2; [reflexivity|].
    unfold sha256_hex, Sha256.Sum256 in Hne. congruence.
  - cbn [Os.files]. apply lookup_insert_eq.
Qed.

Lemma unary_mismatch_is_reported_in_HashOk_witness :
  ∃ w',
    UploadFile (Os.World ∅ ∅ 0)
      {| req_Filename := "report.pdf"; req_Title := "Q1";
         req_Sha256 := sha256_hex (bytes "abcdex");
         req_Data := bytes "abcdef" |} None
    = (Ok {| Message := "ok"; Size := 6; HashOk := false |}, w')
    ∧ Os.files w' !! resolved "report.pdf" = Some (bytes "abcdef").
Proof.
  apply (unary_mismatch_is_reported_in_HashOk (Os.World ∅ ∅ 0)
           {| req_Filename := "report.pdf"; req_Title := "Q1";
              req_Sha256 := sha256_hex (bytes "abcdex");
              req_Data := bytes "abcdef" |}).
  vm_compute. discriminate.
Defined.

(** C7, as stated, fails: the unary handler keeps the mismatched payload
    and answers with a response, not with a data-loss error. *)
Lemma unary_mismatch_is_kept :
  let '(r, w') :=
    UploadFile (Os.World ∅ ∅ 0)
      {| req_Filename := "report.pdf"; req_Title := "Q1";
         req_Sha256 :=
           "9fffe112d28bf3dd9059056e544a47cea1e81041e7f9686bbd71e28ab863327a";
         req_Data := bytes "abcdef" |} None in
  r = Ok {| Message := "ok"; Size := 6; HashOk := false |}
  ∧ Os.files w' !! "uploads/report.pdf" = Some (bytes "abcdef").
Proof. vm_compute. split; reflexivity. Qed.

(** C8. When the first message of a session is a chunk or a commit, the
    handler returns an error and leaves the file system exactly as it was:
    nothing is created or opened.  The error is [CodeInvalidArgument],
    unless the context is already done when the message is handled, in
    which case it is the context's error. *)
Theorem chunk_or_commit_before_metadata_is_rejected
    (w : Os.world) (done : option ctx_error) (chunk : list byte)
    (clientHash : string) (flt : option Os.fault) (rest : list arrival)
    (serr : option error) :
  Upload w ({| ctx_done := done; msg := UploadRequest_Chunk chunk; io := flt |}
            :: rest) serr
  = (Err match done with
         | Some ce => ContextError ce
         | None => ConnectError CodeInvalidArgument "metadata must be sent first"
         end, w)
  ∧ Upload w ({| ctx_done := done; msg := UploadRequest_FinishCommit clientHash;
                 io := flt |} :: rest) serr
    = (Err match done with
           | Some ce => ContextError ce
           | None => ConnectError CodeInvalidArgument "no file data received"
           end, w).
Proof. by destruct done. Qed.

Lemma chunk_or_commit_before_metadata_is_rejected_witness :
  Upload (Os.World ∅ ∅ 0) [deliver (UploadRequest_Chunk (bytes "abc"))] None
  = (Err (ConnectError CodeInvalidArgument "metadata must be sent first"),
     Os.World ∅ ∅ 0)
  ∧ Upload (Os.World ∅ ∅ 0)
      [deliver (UploadRequest_FinishCommit (sha256_hex []))] None
    = (Err (ConnectError CodeInvalidArgument "no file data received"),
       Os.World ∅ ∅ 0).
Proof.
  exact (chunk_or_commit_before_metadata_is_rejected (Os.World ∅ ∅ 0) None
           (bytes "abc") (sha256_hex []) None [] None).
Defined.

(** Cancellation found at the poll.  The context is found done when a
    message is handled, after the metadata and any number of chunks.  Then
    the handler returns the context's error, which is not the
    [CodeInternal] error of an I/O failure; the descriptor is closed and no
    file is left at the resolved path.  Before any metadata there is
    nothing to clean up and the file system is as it was. *)
Theorem cancellation_deletes_the_partial_file
    (w : Os.world) (md : UploadMetadata) (chunks : list (list byte))
    (ce : ctx_error) (p : Payload) (flt : option Os.fault)
    (rest : list arrival) (serr : option error) :
  (∃ w',
     Upload w
       (deliver (UploadRequest_Metadata md) :: deliver_chunks chunks
        ++ {| ctx_done := Some ce; msg := p; io := flt |} :: rest) serr
     = (Err (ContextError ce), w')
     ∧ Os.files w' !! resolved (Filename md) = None
     ∧ Os.fds w' !! Os.next_fd w = None)
  ∧ Upload w ({| ctx_done := Some ce; msg := p; io := flt |} :: rest) serr
    = (Err (ContextError ce), w)
  ∧ ∀ m, ContextError ce ≠ ConnectError CodeInternal m.
Proof.
  split; [|done].
  unfold Upload. rewrite Upload_facts.loop_metadata_chunks.
  cbn [Upload_loop ctx_done receiving file filename].
  fold (resolved (Filename md)).
  rewrite Upload_facts.close_remove_writing.
  eexists. split; [reflexivity|]. cbn [Os.files Os.fds].
  by rewrite !lookup_delete_eq.
Qed.

Lemma cancellation_deletes_the_partial_file_witness :
  (∃ w',
     Upload (Os.World ∅ ∅ 0)
       [ deliver (UploadRequest_Metadata {| Filename := "a.txt"; Title := "" |});
         deliver (UploadRequest_Chunk (bytes "abc"));
         {| ctx_done := Some Canceled;
            msg := UploadRequest_Chunk (bytes "def"); io := None |} ]
       None
     = (Err (ContextError Canceled), w')
     ∧ Os.files w' !! resolved "a.txt" = None
     ∧ Os.fds w' !! 0 = None)
  ∧ Upload (Os.World ∅ ∅ 0)
      [ {| ctx_done := Some Canceled;
           msg := UploadRequest_Chunk (bytes "def"); io := None |} ]
      None
    = (Err (ContextError Canceled), Os.World ∅ ∅ 0)
  ∧ ∀ m, ContextError Canceled ≠ ConnectError CodeInternal m.
Proof.
  exact (cancellation_deletes_the_partial_file (Os.World ∅ ∅ 0)
           {| Filename := "a.txt"; Title := "" |} [bytes "abc"] Canceled
           (UploadRequest_Chunk (bytes "def")) None [] None).
Defined.

(** C9. Cancellation that ends the stream.  The poll of the context runs
    only when a message has been received.  When the cancellation makes
    [Receive] return false instead, after the metadata and any number of
    chunks, the handler returns the error of the stream as it is and only
    the deferred close runs: the file written so far stays at the resolved
    path, unlike at the poll, where it is removed. *)
Theorem cancellation_at_stream_end_keeps_the_file
    (w : Os.world) (md : UploadMetadata) (chunks : list (list byte))
    (e : error) :
  ∃ w',
    Upload w (deliver (UploadRequest_Metadata md) :: deliver_chunks chunks)
      (Some e)
    = (Err e, w')
    ∧ Os.files w' !! resolved (Filename md) = Some (concat chunks)
    ∧ Os.fds w' !! Os.next_fd w = None.
Proof.
  rewrite Upload_facts.stream_error_is_passed_on.
  eexists. split; [reflexivity|]. cbn [Os.files Os.fds].
  by rewrite lookup_insert_eq, lookup_delete_eq.
Qed.

Lemma cancellation_at_stream_end_keeps_the_file_witness :
  ∃ w',
    Upload (Os.World ∅ ∅ 0)
      [ deliver (UploadRequest_Metadata {| Filename := "a.txt"; Title := "" |});
        deliver (UploadRequest_Chunk (bytes "abc")) ]
      (Some (StreamError "canceled: context canceled"))
    = (Err (StreamError "canceled: context canceled"), w')
    ∧ Os.files w' !! resolved "a.txt" = Some (bytes "abc")
    ∧ Os.fds w' !! 0 = None.
Proof.
  exact (cancellation_at_stream_end_keeps_the_file (Os.World ∅ ∅ 0)
           {| Filename := "a.txt"; Title := "" |} [bytes "abc"]
           (StreamError "canceled: context canceled")).
Defined.

(** C10. A response is returned only for a commit message, and its [HashOk]
    is true.  A stream that ends after the metadata and any chunks, or with
    no message at all, and reports no error of its own, ends the session
    with the error [stream closed without commit]. *)
Theorem success_only_on_commit
    (w : Os.world) (stream : list arrival) (serr : option error)
    (md : UploadMetadata) (chunks : list (list byte)) :
  (∀ resp w', Upload w stream serr = (Ok resp, w') →
     HashOk resp = true
     ∧ ∃ a h, a ∈ stream ∧ msg a = UploadRequest_FinishCommit h)
  ∧ fst (Upload w (deliver (UploadRequest_Metadata md) :: deliver_chunks chunks)
           None)
    = Err (ConnectError CodeInvalidArgument "stream closed without commit")
  ∧ fst (Upload w [] None)
    = Err (ConnectError CodeInvalidArgument "stream closed without commit").
Proof.
  split; [|split; [|reflexivity]].
  - intros resp w'. unfold Upload.
    destruct (Upload_loop locals0 w stream serr) as [[r s] w1] eqn:Hrun.
    intros [= -> _]. by apply Upload_facts.loop_success in Hrun.
  - unfold Upload.
    rewrite <- (app_nil_r (deliver_chunks chunks)).
    by rewrite Upload_facts.loop_metadata_chunks.
Qed.

Lemma success_only_on_commit_witness :
  HashOk {| Message := "Upload successful and verified";
            Size := 3; HashOk := true |} = true
  ∧ ∃ a h,
      a ∈ [ deliver (UploadRequest_Metadata {| Filename := "a"; Title := "" |});
            deliver (UploadRequest_Chunk (bytes "abc"));
            deliver (UploadRequest_FinishCommit (sha256_hex (bytes "abc"))) ]
      ∧ msg a = UploadRequest_FinishCommit h.
Proof.
  refine (proj1 (success_only_on_commit (Os.World ∅ ∅ 0) _ None
                   {| Filename := "a"; Title := "" |} []) _
                (Os.World (<["uploads/a" := bytes "abc"]> ∅) ∅ 1) _).
  vm_compute. reflexivity.
Defined.

(** * Further properties of the server *)

Local Transparent sanitizeFilename safePath Sha256.Sum Sha256.Write
  Hex.EncodeToString.

(** ** The loop of the streaming handler, for every stream *)

Module Session_facts.
Import Upload_facts.

(** What the handler does to the world once the loop has returned. *)
Lemma deferred_close_files s w :
  Os.files match file s with Some fd => Os.Close fd w | None => w end
  = Os.files w.
Proof. by destruct (file s). Qed.

(** The loop touches the file of its own metadata only. *)
Lemma loop_isolated (p : string) stream : ∀ s w serr,
  (∀ a md, a ∈ stream → msg a = UploadRequest_Metadata md →
           p ≠ resolved (Filename md)) →
  (∀ fd, file s = Some fd →
         Os.fds w !! fd = Some (safePath (filename s))
         ∧ p ≠ safePath (filename s)) →
  Os.files (Upload_loop s w stream serr).2 !! p = Os.files w !! p.
Proof.
  induction stream as [|a rest IH]; intros s w serr Hmd Hopen.
  - cbn [Upload_loop]. by destruct serr.
  - assert (∀ a0 md, a0 ∈ rest → msg a0 = UploadRequest_Metadata md →
                     p ≠ resolved (Filename md)) as Hrest.
    { intros a0 md Hin. apply Hmd. by right. }
    cbn [Upload_loop].
    destruct (ctx_done a) as [ce|].
    { destruct (file s) as [fd|] eqn:Hf; [|done].
      destruct (Hopen fd eq_refl) as [_ Hp].
      cbn [snd Os.Close Os.Remove Os.files].
      by rewrite lookup_delete_ne. }
    destruct (msg a) as [md|c|h|] eqn:Hmsg.
    + destruct (file s) as [fd|] eqn:Hf; [done|].
      destruct (io a); [done|].
      assert (p ≠ resolved (Filename md)) as Hp by (eapply Hmd; [by left|done]).
      rewrite Create_writing. rewrite IH; [| done |].
      * cbn [writing Os.files]. by rewrite lookup_insert_ne.
      * cbn [file filename writing Os.fds]. intros fd [= <-].
        by rewrite lookup_insert_eq.
    + destruct (file s) as [fd|] eqn:Hf; [|done].
      destruct (Hopen fd eq_refl) as [Hfd Hp].
      assert (∀ b, Os.files (Os.Write fd b w) !! p = Os.files w !! p
                   ∧ Os.fds (Os.Write fd b w) = Os.fds w) as HW.
      { intros b. unfold Os.Write. rewrite Hfd. cbn [Os.files Os.fds].
        by rewrite lookup_alter_ne. }
      destruct (io a) as [flt|].
      { cbn [snd]. apply HW. }
      rewrite IH; [apply HW | done |].
      cbn [file filename]. intros fd' [= <-].
      by rewrite (proj2 (HW c)).
    + destruct (file s) as [fd|] eqn:Hf; [|done].
      destruct (Hopen fd eq_refl) as [_ Hp].
      case_decide; [|done].
      cbn [snd Os.Close Os.Remove Os.files]. by rewrite lookup_delete_ne.
    + done.
Qed.

(** The descriptors open when the loop has returned and the deferred close
    has run are those open before. *)
Lemma loop_closes (fds0 : gmap nat string) stream : ∀ s w serr,
  match file s with
  | None => Os.fds w = fds0 ∧ fds0 !! Os.next_fd w = None
  | Some fd => ∃ q, Os.fds w = <[fd := q]> fds0 ∧ fds0 !! fd = None
  end →
  let out := Upload_loop s w stream serr in
  Os.fds match file out.1.2 with
         | Some fd => Os.Close fd out.2
         | None => out.2
         end = fds0.
Proof.
  cbv zeta.
  assert (∀ fd q w, Os.fds w = <[fd := q]> fds0 → fds0 !! fd = None →
                    delete fd (Os.fds w) = fds0) as Hdel.
  { intros fd q w -> Hnone. by rewrite delete_insert_eq, delete_id. }
  induction stream as [|a rest IH]; intros s w serr Hinv.
  - cbn [Upload_loop].
    assert (Os.fds match file s with Some fd => Os.Close fd w | None => w end
            = fds0) as Hend.
    { destruct (file s) as [fd|]; [|by destruct Hinv].
      destruct Hinv as (q & Hq & Hnone). cbn [Os.Close Os.fds]. eauto. }
    by destruct serr.
  - cbn [Upload_loop].
    destruct (ctx_done a) as [ce|].
    { destruct (file s) as [fd|] eqn:Hf; cbn [fst snd]; rewrite Hf.
      - destruct Hinv as (q & Hq & Hnone).
        cbn [Os.Close Os.Remove Os.fds]. rewrite delete_delete_eq. eauto.
      - by destruct Hinv. }
    destruct (msg a) as [md|c|h|] eqn:Hmsg.
    + destruct (file s) as [fd|] eqn:Hf.
      { cbn [fst snd]. rewrite Hf. destruct Hinv as (q & Hq & Hnone).
        cbn [Os.Close Os.fds]. eauto. }
      destruct Hinv as [Hfds Hnone].
      destruct (io a); [by cbn [fst snd file]|].
      rewrite Create_writing. apply IH.
      cbn [file writing Os.fds]. rewrite Hfds. eauto.
    + destruct (file s) as [fd|] eqn:Hf;
        [|cbn [fst snd]; rewrite Hf; by destruct Hinv].
      destruct Hinv as (q & Hq & Hnone).
      assert (∀ b, Os.fds (Os.Write fd b w) = Os.fds w) as HW.
      { intros b. unfold Os.Write. by destruct (Os.fds w !! fd). }
      destruct (io a) as [flt|].
      { cbn [fst snd]. rewrite Hf. cbn [Os.Close Os.fds]. rewrite HW. eauto. }
      apply IH. cbn [file]. rewrite HW. eauto.
    + destruct (file s) as [fd|] eqn:Hf;
        [|cbn [fst snd]; rewrite Hf; by destruct Hinv].
      destruct Hinv as (q & Hq & Hnone).
      case_decide; cbn [fst snd]; rewrite Hf; cbn [Os.Close Os.Remove Os.fds].
      * rewrite delete_delete_eq. eauto.
      * eauto.
    + cbn [fst snd]. destruct (file s) as [fd|] eqn:Hf.
      * destruct Hinv as (q & Hq & Hnone). cbn [Os.Close Os.fds]. eauto.
      * by destruct Hinv.
Qed.

End Session_facts.
Module Success_facts.
Import Upload_facts.

(** In the receiving state only chunks delivered whole and then a commit
    with the right digest lead to a response. *)
Lemma loop_receiving_success rest : ∀ w fd name data serr resp s' w',
  Upload_loop (receiving fd name data) (writing w fd (safePath name) data)
    rest serr = (Ok resp, s', w') →
  ∃ chunks flt rest',
    rest = deliver_chunks chunks
           ++ {| ctx_done := None;
                 msg := UploadRequest_FinishCommit
                          (sha256_hex (data ++ concat chunks));
                 io := flt |} :: rest'
    ∧ resp = {| Message := "Upload successful and verified";
                Size := int64 (Z.of_nat (length (data ++ concat chunks)));
                HashOk := true |}
    ∧ w' = writing w fd (safePath name) (data ++ concat chunks).
Proof.
  induction rest as [|[cd m i] rest IH]; intros w fd name data serr resp s' w'.
  - cbn [Upload_loop]. by destruct serr.
  - cbn [Upload_loop ctx_done msg io receiving file filename totalSize hasher].
    destruct cd as [ce|]; [done|].
    destruct m as [md|c|h|]; [done| | |done].
    + destruct i as [flt|]; [done|].
      rewrite Write_writing, Sha256_facts.Write_fed, int64_add,
        <- Nat2Z.inj_add, <- length_app.
      intros Hrun. apply (IH w fd name (data ++ c)) in Hrun
        as (chunks & flt & rest' & -> & -> & ->).
      exists (c :: chunks), flt, rest'.
      cbn [deliver_chunks map concat app]. by rewrite !(assoc_L (++)).
    + rewrite <- Sum256_fed. fold (sha256_hex data).
      case_decide as Hh; [done|].
      intros [= <- _ <-]. exists [], i, rest.
      cbn [deliver_chunks map concat app]. rewrite app_nil_r.
      split; [|done]. do 3 f_equal.
      destruct (decide (sha256_hex data = h)); [done|]. by destruct Hh.
Qed.

End Success_facts.
Module Name_facts.
Import Strings Filepath.

Lemma neutralise_safe (s : string) :
  contains_byte "/" s = false → contains_byte "\" s = false →
  neutralise s = s.
Proof.
  induction s as [|c s IH]; [done|].
  cbn [contains_byte neutralise].
  intros [Hc Hs]%orb_false_elim [Hc' Hs']%orb_false_elim.
  by rewrite Hc, Hc', IH.
Qed.

Lemma sanitizeFilename_safe (name : string) :
  safe_leaf name → sanitizeFilename name = name.
Proof.
  intros (Hs & Hb & H0 & H1 & H2).
  rewrite Sanitize_facts.sanitizeFilename_eq.
  rewrite (proj2 (Sanitize_facts.Base_leaf "" name H0 Hs)).
  rewrite neutralise_safe by done.
  unfold fallback. rewrite decide_False; [done|tauto].
Qed.

Lemma sanitizeFilename_safe_leaf (name : string) :
  safe_leaf (sanitizeFilename name).
Proof.
  rewrite Sanitize_facts.sanitizeFilename_eq.
  pose proof (Sanitize_facts.fallback_not_special (neutralise (Base name))).
  split; [|split; [|tauto]].
  - apply Sanitize_facts.fallback_no_separator; [by left|].
    apply Sanitize_facts.neutralise_no_separator. by left.
  - apply Sanitize_facts.fallback_no_separator; [by right|].
    apply Sanitize_facts.neutralise_no_separator. by right.
Qed.

(** The result of [Base] is the separator alone or an element without
    separator. *)
Lemma Base_shape (path : string) :
  Base path = "/" ∨ (Base path ≠ "" ∧ contains_byte "/" (Base path) = false).
Proof.
  destruct path as [|c path]; [by right|].
  unfold Base.
  set (stripped := drop_while IsPathSeparator _).
  set (last := rev (take_while _ stripped)).
  assert (Forall (fun c => IsPathSeparator c = false) last) as Hlast.
  { unfold last. apply Forall_rev. clear.
    induction stripped as [|a l IH]; cbn; [constructor|].
    destruct (IsPathSeparator a) eqn:E; cbn; [constructor|].
    by constructor. }
  destruct last as [|a last'] eqn:E; [by left|].
  right. split; [done|]. rewrite <- E in Hlast. rewrite <- E. clear -Hlast.
  induction Hlast as [|b l Hb _ IH]; [done|].
  cbn [string_of_list_ascii contains_byte]. by rewrite IH, orb_false_r.
Qed.

(** [Base] undoes nothing that [Base] did. *)
Lemma Base_Base (path : string) : Base (Base path) = Base path.
Proof.
  destruct (Base_shape path) as [->|[Hne Hsep]]; [reflexivity|].
  apply (proj2 (Sanitize_facts.Base_leaf "" _ Hne Hsep)).
Qed.

End Name_facts.

(** X1. Whatever name the client supplies, the path the server writes to is
    the upload directory, one separator and the sanitised name, and the
    sanitised name has no separator in it: the file is a direct child of
    the upload directory. *)
Theorem upload_path_is_a_child_of_the_root (name : string) :
  resolved name = "uploads/" +:+ sanitizeFilename name
  ∧ Strings.contains_byte "/" (sanitizeFilename name) = false.
Proof.
  split; [apply Path_facts.resolved_under_root|].
  apply Name_facts.sanitizeFilename_safe_leaf.
Qed.

(** X2. A name without forward or back slash that is neither empty nor [.]
    nor [..] is returned unchanged by [sanitizeFilename]; so sanitising
    twice is the same as sanitising once. *)
Theorem sanitizeFilename_leaves_safe_names (name other : string) :
  (safe_leaf name → sanitizeFilename name = name)
  ∧ sanitizeFilename (sanitizeFilename other) = sanitizeFilename other.
Proof.
  split; [apply Name_facts.sanitizeFilename_safe|].
  apply Name_facts.sanitizeFilename_safe, Name_facts.sanitizeFilename_safe_leaf.
Qed.

Lemma sanitizeFilename_leaves_safe_names_witness :
  sanitizeFilename "report.final.pdf" = "report.final.pdf".
Proof.
  apply (sanitizeFilename_leaves_safe_names "report.final.pdf" "").
  repeat split; discriminate.
Defined.
Local Opaque sanitizeFilename safePath Sha256.Sum Sha256.Write
  Hex.EncodeToString.

(** X3. An I/O failure ends the session with [CodeInternal] and the text of
    the error, and nothing is cleaned up.  When [os.Create] fails for the
    metadata message the file system is as it was.  When a write fails after
    the metadata and some chunks, the descriptor is closed and the file is
    left in place: it holds the chunks written before and whatever part of
    the failing chunk reached it. *)
Theorem io_failure_is_reported_and_nothing_is_deleted
    (w : Os.world) (md : UploadMetadata) (chunks : list (list byte))
    (chunk : list byte) (flt : Os.fault) (rest : list arrival)
    (serr : option error) :
  Upload w ({| ctx_done := None; msg := UploadRequest_Metadata md;
               io := Some flt |} :: rest) serr
  = (Err (ConnectError CodeInternal (Os.fault_msg flt)), w)
  ∧ ∃ w',
      Upload w
        (deliver (UploadRequest_Metadata md) :: deliver_chunks chunks
         ++ {| ctx_done := None; msg := UploadRequest_Chunk chunk;
               io := Some flt |} :: rest) serr
      = (Err (ConnectError CodeInternal (Os.fault_msg flt)), w')
      ∧ Os.files w' !! resolved (Filename md)
        = Some (concat chunks ++ firstn (Os.fault_written flt) chunk)
      ∧ Os.fds w' !! Os.next_fd w = None.
Proof.
  split; [reflexivity|].
  unfold Upload. rewrite Upload_facts.loop_metadata_chunks.
  cbn [Upload_loop ctx_done msg io receiving file].
  rewrite Upload_facts.Write_writing.
  eexists. split; [reflexivity|].
  unfold Os.Close, writing. cbn [Os.files Os.fds].
  by rewrite lookup_insert_eq, lookup_delete_eq.
Qed.

(** X4. When the stream ends after the metadata and some chunks without a
    commit, with or without an error of the stream, the handler returns an
    error and closes the descriptor, and the file is left in place with the
    chunks received. *)
Theorem stream_end_without_commit_keeps_the_file
    (w : Os.world) (md : UploadMetadata) (chunks : list (list byte))
    (serr : option error) :
  ∃ w',
    Upload w (deliver (UploadRequest_Metadata md) :: deliver_chunks chunks) serr
    = (Err match serr with
           | Some e => e
           | None => ConnectError CodeInvalidArgument
                       "stream closed without commit"
           end, w')
    ∧ Os.files w' !! resolved (Filename md) = Some (concat chunks)
    ∧ Os.fds w' !! Os.next_fd w = None.
Proof.
  unfold Upload. rewrite <- (app_nil_r (deliver_chunks chunks)).
  rewrite Upload_facts.loop_metadata_chunks.
  cbn [Upload_loop].
  exists (Os.Close (Os.next_fd w)
            (writing w (Os.next_fd w) (resolved (Filename md)) (concat chunks))).
  split; [by destruct serr|].
  unfold Os.Close, writing. cbn [Os.files Os.fds].
  by rewrite lookup_insert_eq, lookup_delete_eq.
Qed.

(** X5. Whatever the stream, the handler leaves every file alone except the
    one its metadata names: a path that is not the resolved path of a
    metadata message of the stream holds after the call what it held
    before. *)
Theorem upload_touches_its_own_file_only
    (w : Os.world) (stream : list arrival) (serr : option error)
    (p : string) :
  (∀ a md, a ∈ stream → msg a = UploadRequest_Metadata md →
           p ≠ resolved (Filename md)) →
  Os.files (Upload w stream serr).2 !! p = Os.files w !! p.
Proof.
  intros Hp. unfold Upload.
  pose proof (Session_facts.loop_isolated p stream locals0 w serr Hp) as H.
  destruct (Upload_loop locals0 w stream serr) as [[r s] w'].
  cbn [snd] in *. rewrite Session_facts.deferred_close_files.
  by apply H.
Qed.

Lemma upload_touches_its_own_file_only_witness :
  Os.files
    (Upload (Os.World {["uploads/b.txt" := bytes "old"]} ∅ 0)
       [ deliver (UploadRequest_Metadata {| Filename := "a.txt"; Title := "" |});
         deliver (UploadRequest_Chunk (bytes "abc")) ] None).2
    !! "uploads/b.txt"
  = Some (bytes "old").
Proof.
  etrans.
  - apply (upload_touches_its_own_file_only
             (Os.World {["uploads/b.txt" := bytes "old"]} ∅ 0)
             [ deliver (UploadRequest_Metadata
                          {| Filename := "a.txt"; Title := "" |});
               deliver (UploadRequest_Chunk (bytes "abc")) ] None
             "uploads/b.txt").
    intros a md Hin Hmsg.
    apply elem_of_cons in Hin as [->|Hin].
    + injection Hmsg as <-. vm_compute. discriminate.
    + apply list_elem_of_singleton in Hin as ->. discriminate.
  - vm_compute. reflexivity.
Defined.

(** X6. Whatever the stream, the handler leaves no descriptor open: when the
    next descriptor to hand out is not in use, the descriptors open after
    the call are exactly those open before. *)
Theorem upload_leaks_no_descriptor
    (w : Os.world) (stream : list arrival) (serr : option error) :
  Os.fds w !! Os.next_fd w = None →
  Os.fds (Upload w stream serr).2 = Os.fds w.
Proof.
  intros Hfree. unfold Upload.
  pose proof (Session_facts.loop_closes (Os.fds w) stream locals0 w serr) as H.
  cbv zeta in H.
  destruct (Upload_loop locals0 w stream serr) as [[r s] w'].
  cbn [fst snd] in *. by apply H.
Qed.

Lemma upload_leaks_no_descriptor_witness :
  Os.fds
    (Upload (Os.World ∅ {[0 := "uploads/other"]} 1)
       [ deliver (UploadRequest_Metadata {| Filename := "a.txt"; Title := "" |});
         deliver (UploadRequest_Chunk (bytes "abc"));
         deliver Payload_unset ] None).2
  = {[0 := "uploads/other"]}.
Proof.
  etrans.
  - apply (upload_leaks_no_descriptor
             (Os.World ∅ {[0 := "uploads/other"]} 1)
             [ deliver (UploadRequest_Metadata
                          {| Filename := "a.txt"; Title := "" |});
               deliver (UploadRequest_Chunk (bytes "abc"));
               deliver Payload_unset ] None).
    vm_compute. reflexivity.
  - reflexivity.
Defined.

(** X7. The handler answers with a response only for a stream that begins
    with a metadata message, goes on with chunks that are all written, and
    then has a commit whose digest is the lowercase-hex SHA-256 of those
    chunks; the response then carries their total length (as an [int64])
    and the file at the resolved path holds exactly those chunks. *)
Theorem a_response_means_the_file_was_verified
    (w : Os.world) (stream : list arrival) (serr : option error)
    (resp : UploadResponse) (w' : Os.world) :
  Upload w stream serr = (Ok resp, w') →
  ∃ md chunks flt rest,
    stream = deliver (UploadRequest_Metadata md) :: deliver_chunks chunks
             ++ {| ctx_done := None;
                   msg := UploadRequest_FinishCommit
                            (sha256_hex (concat chunks));
                   io := flt |} :: rest
    ∧ resp = {| Message := "Upload successful and verified";
                Size := int64 (Z.of_nat (length (concat chunks)));
                HashOk := true |}
    ∧ Os.files w' !! resolved (Filename md) = Some (concat chunks).
Proof.
  unfold Upload.
  destruct (Upload_loop locals0 w stream serr) as [[r s] w1] eqn:Hrun.
  intros [= -> <-].
  destruct stream as [|[cd m i] rest].
  { cbn [Upload_loop] in Hrun. by destruct serr. }
  cbn [Upload_loop ctx_done msg io locals0 file] in Hrun.
  destruct cd; [done|]. destruct m as [md| | |]; [|done..].
  destruct i; [done|].
  rewrite Upload_facts.Create_writing in Hrun.
  apply (Success_facts.loop_receiving_success rest w _ _ []) in Hrun
    as (chunks & flt & rest' & -> & -> & ->).
  exists md, chunks, flt, rest'. cbn [app]. split; [done|]. split; [done|].
  rewrite Session_facts.deferred_close_files.
  unfold writing. cbn [Os.files]. apply lookup_insert_eq.
Qed.

Lemma a_response_means_the_file_was_verified_witness :
  ∃ md chunks flt rest,
    [ deliver (UploadRequest_Metadata {| Filename := "a"; Title := "" |});
      deliver (UploadRequest_Chunk (bytes "abc"));
      deliver (UploadRequest_FinishCommit (sha256_hex (bytes "abc"))) ]
    = deliver (UploadRequest_Metadata md) :: deliver_chunks chunks
      ++ {| ctx_done := None;
            msg := UploadRequest_FinishCommit (sha256_hex (concat chunks));
            io := flt |} :: rest
    ∧ {| Message := "Upload successful and verified"; Size := 3;
         HashOk := true |}
      = {| Message := "Upload successful and verified";
           Size := int64 (Z.of_nat (length (concat chunks)));
           HashOk := true |}
    ∧ Os.files (Os.World (<["uploads/a" := bytes "abc"]> ∅) ∅ 1)
        !! resolved (Filename md) = Some (concat chunks).
Proof.
  apply (a_response_means_the_file_was_verified (Os.World ∅ ∅ 0) _ None).
  vm_compute. reflexivity.
Defined.
Local Transparent Sha256.Sum Sha256.Write Hex.EncodeToString.

(** ** The digest string *)

Module Digest_facts.
Import Sha256.

Lemma block_n_length n : ∀ hs (p : list byte),
  length hs = 8 → length (block_n n hs p) = 8.
Proof. induction n as [|n IH]; intros hs p Hhs; [done|]. by apply IH. Qed.

Lemma fed_length (bs : list byte) : length (h (fed bs)) = 8.
Proof. unfold fed, block. cbn [h]. by apply block_n_length. Qed.

Lemma PutUint32_flat_length (l : list Z) :
  length (flat_map PutUint32 l) = 4 * length l.
Proof. induction l as [|v l IH]; [done|]. cbn. rewrite IH. lia. Qed.

Lemma Sum_fed_length (bs : list byte) : length (Sum (fed bs)) = 32.
Proof.
  unfold Sum, checkSum. rewrite Sha256_facts.Write_fed.
  by rewrite PutUint32_flat_length, fed_length.
Qed.

Lemma Sum256_length (data : list byte) : length (Sum256 data) = 32.
Proof. rewrite Upload_facts.Sum256_fed. apply Sum_fed_length. Qed.

Lemma EncodeToString_length (src : list byte) :
  String.length (Hex.EncodeToString src) = 2 * length src.
Proof. induction src as [|v src IH]; [done|]. cbn. rewrite IH. lia. Qed.

Lemma EncodeToString_lower_hex (src : list byte) :
  all_bytes is_lower_hex (Hex.EncodeToString src) = true.
Proof.
  induction src as [|v src IH]; [done|].
  cbn [Hex.EncodeToString all_bytes]. rewrite IH.
  by destruct v.
Qed.

(** Decoding what was encoded gives the bytes back. *)
Lemma Decode_Encode (src : list byte) :
  Hex_decode.DecodeString (Hex.EncodeToString src) = Some src.
Proof.
  induction src as [|v src IH]; [done|].
  cbn [Hex.EncodeToString Hex_decode.DecodeString]. rewrite IH.
  by destruct v.
Qed.

End Digest_facts.

(** X8. The digest string the server computes is always 64 characters
    long, each of them one of [0] to [9] and [a] to [f]. *)
Theorem digest_is_64_lowercase_hex_digits (data : list byte) :
  String.length (sha256_hex data) = 64
  ∧ all_bytes is_lower_hex (sha256_hex data) = true.
Proof.
  unfold sha256_hex. split.
  - by rewrite Digest_facts.EncodeToString_length, Digest_facts.Sum256_length.
  - apply Digest_facts.EncodeToString_lower_hex.
Qed.

(** X9. [hex.DecodeString] undoes [hex.EncodeToString], so two byte
    sequences with the same encoding are equal: comparing the digest strings
    compares the digests. *)
Theorem hex_encoding_is_faithful (a b : list byte) :
  Hex_decode.DecodeString (Hex.EncodeToString a) = Some a
  ∧ (Hex.EncodeToString a = Hex.EncodeToString b → a = b).
Proof.
  split; [apply Digest_facts.Decode_Encode|].
  intros Heq. apply (f_equal Hex_decode.DecodeString) in Heq.
  rewrite !Digest_facts.Decode_Encode in Heq. by injection Heq.
Qed.

Lemma hex_encoding_is_faithful_witness :
  Hex_decode.DecodeString "616263" = Some (bytes "abc")
  ∧ bytes "abc" = [x61; x62; x63].
Proof.
  split.
  - exact (proj1 (hex_encoding_is_faithful (bytes "abc") [])).
  - apply (hex_encoding_is_faithful (bytes "abc") [x61; x62; x63]).
    reflexivity.
Defined.

Local Opaque sanitizeFilename safePath Sha256.Sum Sha256.Write
  Hex.EncodeToString.

(** X10. A commit whose digest string is not 64 characters long, or has a
    character that is not a lowercase hexadecimal digit, is never accepted,
    whatever was uploaded: the handler returns [CodeDataLoss], the file is
    removed and the descriptor closed.  A correct digest written in upper
    case is rejected in this way. *)
Theorem malformed_digest_is_rejected
    (w : Os.world) (md : UploadMetadata) (chunks : list (list byte))
    (clientHash : string) (flt : option Os.fault) (rest : list arrival)
    (serr : option error) :
  String.length clientHash ≠ 64 ∨ all_bytes is_lower_hex clientHash = false →
  ∃ w',
    Upload w
      (deliver (UploadRequest_Metadata md) :: deliver_chunks chunks
       ++ {| ctx_done := None; msg := UploadRequest_FinishCommit clientHash;
             io := flt |} :: rest) serr
    = (Err (ConnectError CodeDataLoss "checksum mismatch"), w')
    ∧ Os.files w' !! resolved (Filename md) = None
    ∧ Os.fds w' !! Os.next_fd w = None.
Proof.
  intros Hbad.
  assert (sha256_hex (concat chunks) ≠ clientHash) as Hne.
  { intros <-. unfold sha256_hex in Hbad.
    rewrite Digest_facts.EncodeToString_length, Digest_facts.Sum256_length,
      Digest_facts.EncodeToString_lower_hex in Hbad.
    by destruct Hbad. }
  unfold Upload. rewrite Upload_facts.loop_metadata_chunks.
  cbn [Upload_loop ctx_done msg io receiving file filename totalSize hasher].
  rewrite <- Upload_facts.Sum256_fed. fold (sha256_hex (concat chunks)).
  rewrite decide_True by done.
  cbn [receiving file]. fold (resolved (Filename md)).
  rewrite Upload_facts.close_remove_writing.
  eexists. split; [reflexivity|]. cbn [Os.files Os.fds].
  by rewrite !lookup_delete_eq.
Qed.

Lemma malformed_digest_is_rejected_witness :
  ∃ w',
    Upload (Os.World ∅ ∅ 0)
      [ deliver (UploadRequest_Metadata {| Filename := "a.txt"; Title := "" |});
        deliver (UploadRequest_Chunk (bytes "abc"));
        deliver (UploadRequest_FinishCommit
          "BA7816BF8F01CFEA414140DE5DAE2223B00361A396177A9CB410FF61F20015AD") ]
      None
    = (Err (ConnectError CodeDataLoss "checksum mismatch"), w')
    ∧ Os.files w' !! resolved "a.txt" = None
    ∧ Os.fds w' !! 0 = None.
Proof.
  apply (malformed_digest_is_rejected (Os.World ∅ ∅ 0)
           {| Filename := "a.txt"; Title := "" |} [bytes "abc"]
           "BA7816BF8F01CFEA414140DE5DAE2223B00361A396177A9CB410FF61F20015AD"
           None [] None).
  right. reflexivity.
Defined.

(** X11. The unary handler stores the payload whenever the write succeeds,
    and its [HashOk] is true exactly when the claimed digest is the
    lowercase-hex SHA-256 of the payload.  When the file cannot be opened
    the handler returns [CodeInternal] and the file system is as it was. *)
Theorem unary_upload_stores_and_compares
    (w : Os.world) (req : UploadFileRequest) (msg : string) :
  (∃ resp w',
     UploadFile w req None = (Ok resp, w')
     ∧ Size resp = Z.of_nat (length (req_Data req))
     ∧ (HashOk resp = true ↔ req_Sha256 req = sha256_hex (req_Data req))
     ∧ Os.files w' !! resolved (req_Filename req) = Some (req_Data req)
     ∧ Os.fds w' = Os.fds w)
  ∧ UploadFile w req (Some (Os.OpenFault msg))
    = (Err (ConnectError CodeInternal msg), w).
Proof.
  split; [|reflexivity].
  unfold UploadFile, Os.WriteFile. eexists _, _.
  split; [reflexivity|]. cbn [Size HashOk Os.files Os.fds].
  split; [done|]. split; [|split; [apply lookup_insert_eq|done]].
  rewrite bool_decide_eq_true. unfold sha256_hex, Sha256.Sum256.
  split; congruence.
Qed.

Lemma unary_upload_stores_and_compares_witness :
  ∃ resp w',
    UploadFile (Os.World ∅ ∅ 0)
      {| req_Filename := "../a.txt"; req_Title := "t";
         req_Sha256 := sha256_hex (bytes "abc"); req_Data := bytes "abc" |}
      None
    = (Ok resp, w')
    ∧ Size resp = 3%Z
    ∧ (HashOk resp = true
       ↔ sha256_hex (bytes "abc") = sha256_hex (bytes "abc"))
    ∧ Os.files w' !! resolved "../a.txt" = Some (bytes "abc")
    ∧ Os.fds w' = ∅.
Proof.
  exact (proj1 (unary_upload_stores_and_compares (Os.World ∅ ∅ 0)
                  {| req_Filename := "../a.txt"; req_Title := "t";
                     req_Sha256 := sha256_hex (bytes "abc");
                     req_Data := bytes "abc" |} "")).
Defined.
Local Transparent sanitizeFilename safePath Sha256.Sum Sha256.Write
  Hex.EncodeToString.

(** ** The streaming client *)

Module Client_facts.
Import GoClient.

Lemma tee_fed bs p : tee (Sha256.fed bs) p = Sha256.fed (bs ++ p).
Proof.
  unfold tee. destruct p as [|b p]; [by rewrite app_nil_r|].
  cbn [length Nat.ltb Nat.leb]. apply Sha256_facts.Write_fed.
Qed.

Lemma send_chunk_filter (p : list byte) :
  send_chunk p = map UploadRequest_Chunk (List.filter nonempty [p]).
Proof. unfold send_chunk, nonempty. by destruct p. Qed.

(** The read loop sends the non-empty reads and feeds the hasher all of
    them. *)
Lemma read_loop_fed rs : ∀ bs t,
  (read_loop (Sha256.fed bs) t rs).1
  = (map UploadRequest_Chunk (List.filter nonempty rs),
     Sha256.fed (bs ++ concat rs)).
Proof.
  induction rs as [|p rs IH]; intros bs t.
  - cbn. by rewrite app_nil_r.
  - cbn [read_loop]. rewrite tee_fed.
    set (t' := if 0 <? length p then _ else _).
    specialize (IH (bs ++ p) t').
    destruct (read_loop (Sha256.fed (bs ++ p)) t' rs) as [[sent hs] tb].
    cbn [fst] in *. injection IH as -> ->.
    cbn [concat List.filter]. rewrite (assoc_L (++)). f_equal.
    unfold send_chunk, nonempty. by destruct (0 <? length p).
Qed.

Lemma concat_nonempty (rs : list (list byte)) :
  concat (List.filter nonempty rs) = concat rs.
Proof.
  induction rs as [|p rs IH]; [done|].
  cbn [List.filter concat]. destruct p as [|b p]; cbn; by rewrite IH.
Qed.

Lemma nonempty_Forall (rs : list (list byte)) :
  Forall (fun c => c ≠ []) (List.filter nonempty rs).
Proof.
  induction rs as [|p rs IH]; [constructor|].
  cbn [List.filter]. destruct p as [|b p]; cbn; [done|]. by constructor.
Qed.

Lemma bounded_filter (n : nat) (rs : list (list byte)) :
  Forall (fun c => length c ≤ n) rs →
  Forall (fun c => length c ≤ n) (List.filter nonempty rs).
Proof.
  induction 1 as [|p rs Hp _ IH]; [constructor|].
  cbn [List.filter]. destruct (nonempty p); [by constructor | done].
Qed.

(** What the client sends when the file is read to its end. *)
Lemma main_eof prog path title more (f : source) :
  last_err f = EOF →
  main (prog :: path :: title :: more) (Some f)
  = (UploadRequest_Metadata {| Filename := Filepath.Base path; Title := title |}
     :: map UploadRequest_Chunk
          (List.filter nonempty (reads f ++ [last_read f]))
     ++ [UploadRequest_FinishCommit (sha256_hex (contents f))], true).
Proof.
  intros Heof. unfold main. rewrite Heof.
  pose proof (read_loop_fed (reads f) [] 0%Z) as Hloop.
  change (Sha256.fed []) with Sha256.New in Hloop.
  destruct (read_loop Sha256.New 0 (reads f)) as [[sent hs] tb].
  cbn [fst] in Hloop. injection Hloop as -> ->.
  rewrite tee_fed, send_chunk_filter. cbn [app].
  rewrite <- map_app, <- List.filter_app.
  unfold sha256_hex, contents. by rewrite Upload_facts.Sum256_fed.
Qed.

(** What the client sends when a read fails. *)
Lemma main_read_failed prog path title more (f : source) msg :
  last_err f = ReadFailed msg →
  main (prog :: path :: title :: more) (Some f)
  = (UploadRequest_Metadata {| Filename := Filepath.Base path; Title := title |}
     :: map UploadRequest_Chunk
          (List.filter nonempty (reads f ++ [last_read f])), false).
Proof.
  intros Herr. unfold main. rewrite Herr.
  pose proof (read_loop_fed (reads f) [] 0%Z) as Hloop.
  change (Sha256.fed []) with Sha256.New in Hloop.
  destruct (read_loop Sha256.New 0 (reads f)) as [[sent hs] tb].
  cbn [fst] in Hloop. injection Hloop as -> ->.
  rewrite send_chunk_filter. by rewrite <- map_app, <- List.filter_app.
Qed.

Lemma deliver_all_chunks (chunks : list (list byte)) :
  deliver_all (map UploadRequest_Chunk chunks) = deliver_chunks chunks.
Proof. unfold deliver_all, deliver_chunks. by rewrite map_map. Qed.

Lemma resolved_Base (path : string) : resolved (Filepath.Base path) = resolved path.
Proof.
  unfold resolved. f_equal.
  by rewrite !Sanitize_facts.sanitizeFilename_eq, Name_facts.Base_Base.
Qed.

End Client_facts.
Local Opaque sanitizeFilename safePath Sha256.Sum Sha256.Write
  Hex.EncodeToString.

(** X12. When the client reads its file to the end, it sends the metadata
    with the last element of the path as the name, then chunks, then one
    commit.  The chunks are never empty, they are no longer than a read
    can be, and put together they are the bytes of the file; the digest of
    the commit is the lowercase-hex SHA-256 of the file, however the
    reads split it. *)
Theorem client_sends_the_file_and_its_digest
    (prog path title : string) (more : list string) (f : GoClient.source) :
  GoClient.last_err f = GoClient.EOF →
  ∃ chunks,
    GoClient.main (prog :: path :: title :: more) (Some f)
    = (UploadRequest_Metadata
         {| Filename := Filepath.Base path; Title := title |}
       :: map UploadRequest_Chunk chunks
       ++ [UploadRequest_FinishCommit (sha256_hex (GoClient.contents f))],
       true)
    ∧ concat chunks = GoClient.contents f
    ∧ Forall (fun c => c ≠ []) chunks
    ∧ (Forall (fun r => length r ≤ GoClient.chunkSize)
         (GoClient.reads f ++ [GoClient.last_read f]) →
       Forall (fun c => length c ≤ GoClient.chunkSize) chunks).
Proof.
  intros Heof.
  exists (List.filter nonempty (GoClient.reads f ++ [GoClient.last_read f])).
  split; [by apply Client_facts.main_eof|].
  split; [|split].
  - rewrite Client_facts.concat_nonempty, concat_app. cbn.
    by rewrite app_nil_r.
  - apply Client_facts.nonempty_Forall.
  - apply Client_facts.bounded_filter.
Qed.

Lemma client_sends_the_file_and_its_digest_witness :
  ∃ chunks,
    GoClient.main ["client"; "docs/report.pdf"; "Q1"]
      (Some {| GoClient.reads := [bytes "abc"; []; bytes "def"];
               GoClient.last_read := [];
               GoClient.last_err := GoClient.EOF |})
    = (UploadRequest_Metadata {| Filename := "report.pdf"; Title := "Q1" |}
       :: map UploadRequest_Chunk chunks
       ++ [UploadRequest_FinishCommit (sha256_hex (bytes "abcdef"))], true)
    ∧ concat chunks = bytes "abcdef"
    ∧ Forall (fun c => c ≠ []) chunks
    ∧ (Forall (fun r => length r ≤ GoClient.chunkSize)
         [bytes "abc"; []; bytes "def"; []] →
       Forall (fun c => length c ≤ GoClient.chunkSize) chunks).
Proof.
  exact (client_sends_the_file_and_its_digest "client" "docs/report.pdf" "Q1"
           []
           {| GoClient.reads := [bytes "abc"; []; bytes "def"];
              GoClient.last_read := [];
              GoClient.last_err := GoClient.EOF |} eq_refl).
Defined.

(** X13. Client and server together.  When the client reads its file to
    the end and the server handles every message without cancellation or
    I/O failure, the server answers with the verified response, with
    [Size] the length of the file; the file stored at the resolved path of
    the client's path holds exactly the bytes of the client's file, and no
    descriptor stays open.  The length of the file is taken to fit the
    [int64] counter. *)
Theorem client_upload_is_stored_and_verified
    (w : Os.world) (prog path title : string) (more : list string)
    (f : GoClient.source) :
  GoClient.last_err f = GoClient.EOF →
  (Z.of_nat (length (GoClient.contents f)) < 2 ^ 63)%Z →
  ∃ w',
    Upload w
      (deliver_all (GoClient.main (prog :: path :: title :: more) (Some f)).1)
      None
    = (Ok {| Message := "Upload successful and verified";
             Size := Z.of_nat (length (GoClient.contents f));
             HashOk := true |}, w')
    ∧ Os.files w' !! resolved path = Some (GoClient.contents f)
    ∧ Os.fds w' !! Os.next_fd w = None.
Proof.
  intros Heof Hfit. rewrite Client_facts.main_eof by done. cbn [fst].
  set (chunks := List.filter nonempty _).
  assert (concat chunks = GoClient.contents f) as Hcat.
  { unfold chunks. rewrite Client_facts.concat_nonempty, concat_app. cbn.
    by rewrite app_nil_r. }
  unfold deliver_all. cbn [map]. rewrite map_app.
  fold (deliver_all (map UploadRequest_Chunk chunks)).
  rewrite Client_facts.deliver_all_chunks. cbn [map].
  unfold Upload. rewrite Upload_facts.loop_metadata_chunks.
  cbn [Upload_loop deliver ctx_done msg io receiving file filename totalSize
       hasher Filename].
  rewrite <- Upload_facts.Sum256_fed. fold (sha256_hex (concat chunks)).
  rewrite Hcat. rewrite decide_False by (intros H; by apply H).
  rewrite Upload_facts.int64_small by lia.
  eexists. split; [reflexivity|].
  cbn [receiving file]. unfold Os.Close, writing. cbn [Os.files Os.fds].
  rewrite Client_facts.resolved_Base.
  by rewrite lookup_insert_eq, lookup_delete_eq.
Qed.

Lemma client_upload_is_stored_and_verified_witness :
  ∃ w',
    Upload (Os.World ∅ ∅ 0)
      (deliver_all
         (GoClient.main ["client"; "docs/report.pdf"; "Q1"]
            (Some {| GoClient.reads := [bytes "abc"; []; bytes "def"];
                     GoClient.last_read := [];
                     GoClient.last_err := GoClient.EOF |})).1)
      None
    = (Ok {| Message := "Upload successful and verified";
             Size := 6; HashOk := true |}, w')
    ∧ Os.files w' !! resolved "docs/report.pdf" = Some (bytes "abcdef")
    ∧ Os.fds w' !! 0 = None.
Proof.
  apply (client_upload_is_stored_and_verified (Os.World ∅ ∅ 0) "client"
           "docs/report.pdf" "Q1" []
           {| GoClient.reads := [bytes "abc"; []; bytes "def"];
              GoClient.last_read := [];
              GoClient.last_err := GoClient.EOF |}).
  - reflexivity.
  - vm_compute. reflexivity.
Defined.

(** X14. A client that ends in [log.Fatal], for too few arguments, a file
    that cannot be opened or a failing read, has sent no commit: whatever
    the server then sees as the end of the stream, and whatever the context
    and the I/O do, it never answers with a response. *)
Theorem aborted_client_gets_no_response
    (w : Os.world) (args : list string) (file : option GoClient.source)
    (stream : list arrival) (serr : option error) :
  (GoClient.main args file).2 = false →
  map msg stream = (GoClient.main args file).1 →
  ∃ e, (Upload w stream serr).1 = Err e.
Proof.
  intros Hfatal Hsent.
  assert (∀ a h, a ∈ stream → msg a ≠ UploadRequest_FinishCommit h) as Hno.
  { intros a h Hin Hm.
    assert (UploadRequest_FinishCommit h ∈ (GoClient.main args file).1) as Hc.
    { rewrite <- Hsent, <- Hm. by apply list_elem_of_fmap_2. }
    clear -Hfatal Hc.
    destruct args as [|prog [|path [|title more]]]; try by inversion Hc.
    destruct file as [f|]; [|by inversion Hc].
    destruct (GoClient.last_err f) as [|m] eqn:Herr.
    { by rewrite Client_facts.main_eof in Hfatal. }
    rewrite (Client_facts.main_read_failed _ _ _ _ _ m) in Hc by done.
    cbn [fst] in Hc. apply elem_of_cons in Hc as [?|Hc]; [done|].
    apply list_elem_of_fmap in Hc as (c & ? & _). done. }
  unfold Upload.
  destruct (Upload_loop locals0 w stream serr) as [[r s] w1] eqn:Hrun.
  cbn [fst]. destruct r as [resp|e]; [|eauto].
  apply Upload_facts.loop_success in Hrun as (_ & a & h & Hin & Hm).
  by destruct (Hno a h Hin).
Qed.

Lemma aborted_client_gets_no_response_witness :
  ∃ e,
    (Upload (Os.World ∅ ∅ 0)
       [ deliver (UploadRequest_Metadata {| Filename := "a.txt"; Title := "t" |});
         deliver (UploadRequest_Chunk (bytes "abc")) ]
       (Some (StreamError "unexpected EOF"))).1 = Err e.
Proof.
  apply (aborted_client_gets_no_response (Os.World ∅ ∅ 0)
           ["client"; "a.txt"; "t"]
           (Some {| GoClient.reads := [bytes "abc"];
                    GoClient.last_read := [];
                    GoClient.last_err := GoClient.ReadFailed "input/output error" |})).
  - reflexivity.
  - reflexivity.
Defined.
Local Transparent sanitizeFilename safePath Sha256.Sum Sha256.Write
  Hex.EncodeToString.

(** ** The browser client *)

Module Browser_facts.
Import Browser.

(** Two digits per byte, the same as [hextable] gives. *)
Lemma pad_toString16 (b : byte) :
  padStart (toString16 b) 2 "0"
  = String (Hex.digit (N.shiftr (Byte.to_N b) 4))
           (String (Hex.digit (N.land (Byte.to_N b) 15)) "").
Proof. by destruct b. Qed.

Lemma join_digits (src : list byte) :
  Strings.Join (map (fun b => padStart (toString16 b) 2 "0") src) ""
  = Hex.EncodeToString src.
Proof.
  induction src as [|b src IH]; [done|].
  cbn [map Hex.EncodeToString]. rewrite <- IH, pad_toString16.
  destruct src as [|b' src]; [done|]. reflexivity.
Qed.

Lemma sha256File_hex (file : File) : sha256File file = sha256_hex (data file).
Proof. apply join_digits. Qed.

End Browser_facts.

Local Opaque sanitizeFilename safePath Sha256.Sum Sha256.Write
  Hex.EncodeToString.

(** X15. The digest string the browser client computes, with
    [toString(16)] and [padStart], is the one the server computes with
    [hex.EncodeToString]: two lowercase digits per byte. *)
Theorem browser_digest_is_the_server_digest (file : Browser.File) :
  Browser.sha256File file
  = Hex.EncodeToString (Sha256.Sum (Sha256.Write Sha256.New (Browser.data file))).
Proof. apply Browser_facts.sha256File_hex. Qed.

(** X16. Browser client and unary handler together.  For a selected file
    [doUpload] makes one call, with the request that carries the name and
    the bytes of the file, the digest the client computed, and as title the
    value of the title input, or the name of the file when that is empty;
    the status line follows from the outcome of that call alone.  When the
    call is the handler and its write succeeds, the status line reports a
    complete upload of the length of the file with the hash verified, in
    the class [status success], and the server has stored the bytes of the
    file at the resolved path of its name. *)
Theorem browser_upload_is_stored_and_verified
    (w : Os.world) (call : UploadFileRequest → result)
    (text : error → string) (file : Browser.File) (titleValue : string) :
  let title := if decide (titleValue = "") then Browser.name file
               else titleValue in
  let sent :=
    {| req_Filename := Browser.name file; req_Title := title;
       req_Sha256 := sha256_hex (Browser.data file);
       req_Data := Browser.data file |} in
  Browser.doUpload call text (Some file) titleValue
  = match call sent with
    | Ok response =>
        (Browser.UploadComplete (Size response) (HashOk response),
         if HashOk response then "status success" else "status warning")
    | Err e => (Browser.UploadFailed (text e), "status error")
    end
  ∧ Browser.doUpload (fun req => (UploadFile w req None).1) text (Some file)
      titleValue
    = (Browser.UploadComplete (Z.of_nat (length (Browser.data file))) true,
       "status success")
  ∧ Os.files (UploadFile w sent None).2 !! resolved (Browser.name file)
    = Some (Browser.data file).
Proof.
  intros title sent.
  assert (∀ c, Browser.doUpload c text (Some file) titleValue
               = match c sent with
                 | Ok response =>
                     (Browser.UploadComplete (Size response) (HashOk response),
                      if HashOk response then "status success"
                      else "status warning")
                 | Err e => (Browser.UploadFailed (text e), "status error")
                 end) as Hcall.
  { intros c. unfold Browser.doUpload, Browser.uploadFile, Browser.request.
    rewrite Browser_facts.sha256File_hex.
    assert (match titleValue with
            | EmptyString => Browser.name file
            | String _ _ => titleValue
            end = title) as -> by (unfold title; by destruct titleValue).
    fold sent. by destruct (c sent). }
  split; [apply Hcall|]. split.
  - rewrite Hcall. unfold UploadFile, Os.WriteFile, sent.
    cbn [fst req_Sha256 req_Data Size HashOk].
    unfold sha256_hex, Sha256.Sum256.
    by rewrite bool_decide_eq_true_2.
  - unfold UploadFile, Os.WriteFile, sent.
    cbn [snd Os.files req_Filename req_Data].
    apply lookup_insert_eq.
Qed.

(** X17. Against this server the browser client never shows the class
    [status warning]: whether the write on the server succeeds or fails,
    and with or without a selected file, the class is [status success] or
    [status error], and it is [status error] exactly when there is no file
    or the server's write failed. *)
Theorem browser_status_is_success_or_error
    (w : Os.world) (text : error → string) (file : option Browser.File)
    (titleValue : string) (flt : option Os.fault) :
  (Browser.doUpload (fun req => (UploadFile w req flt).1) text file
     titleValue).2
  = match file, flt with
    | Some _, None => "status success"
    | _, _ => "status error"
    end.
Proof.
  destruct file as [f|]; [|done].
  unfold Browser.doUpload, Browser.uploadFile, UploadFile, Os.WriteFile.
  destruct flt as [[m|m n]|]; [done..|].
  cbn [fst snd Browser.request req_Sha256 req_Data Browser.success
       Browser.size Browser.hashOk Size HashOk].
  rewrite Browser_facts.sha256File_hex.
  unfold sha256_hex, Sha256.Sum256.
  by rewrite bool_decide_eq_true_2.
Qed.

Local Transparent sanitizeFilename safePath Sha256.Sum Sha256.Write
  Hex.EncodeToString.

(** * The earlier servers and their clients *)

Module V1_facts.

Lemma sha256_hex_not_empty (data : list byte) : sha256_hex data ≠ "".
Proof.
  intros H. apply (f_equal String.length) in H.
  unfold sha256_hex in H.
  by rewrite Digest_facts.EncodeToString_length, Digest_facts.Sum256_length in H.
Qed.

(** The loop once the file is open: the hasher and the counter follow the
    data received, the file what the writes wrote. *)
Lemma loop_open stream : ∀ w fd path content bs t hash,
  V1.Upload_loop (Some fd) (int64 t) hash (Sha256.fed bs)
    (writing w fd path content) stream None
  = (V1.Ok {| Message := "ok";
              Size := int64 (t + Z.of_nat
                        (length (concat (map (fun a => V1.Data (V1.req a))
                                             stream))));
              HashOk := bool_decide
                (sha256_hex (bs ++ concat (map (fun a => V1.Data (V1.req a))
                                               stream)) = hash) |},
     Some fd,
     writing w fd path (content ++ concat (map V1.written stream))).
Proof.
  induction stream as [|a rest IH]; intros w fd path content bs t hash.
  - cbn [V1.Upload_loop map concat length]. rewrite !app_nil_r, Z.add_0_r.
    unfold sha256_hex. by rewrite Upload_facts.Sum256_fed.
  - cbn [V1.Upload_loop map concat].
    rewrite Upload_facts.Write_writing, Sha256_facts.Write_fed,
      Upload_facts.int64_add, IH.
    rewrite length_app, Nat2Z.inj_add, !(assoc_L (++)).
    by rewrite Z.add_assoc.
Qed.

End V1_facts.

Local Opaque sanitizeFilename safePath Sha256.Sum Sha256.Write
  Hex.EncodeToString.

(** X18. The first server, for every stream whose file can be created and
    that ends without an error of the stream: the handler answers with a
    response, whatever the writes did.  [Size] and [HashOk] follow the data
    received ([HashOk] is true exactly when the digest of the first message
    is the lowercase-hex SHA-256 of all the data), while the file, at
    [uploads/] followed by the name of the first message as it came, holds
    what the writes wrote.  With no message at all the answer is a response
    with [HashOk] false and nothing is created. *)
Theorem first_server_answers_from_the_data_received
    (w : Os.world) (first : V1.UploadRequest) (wr : option nat)
    (rest : list V1.arrival) :
  let stream := {| V1.req := first; V1.create_err := None;
                   V1.write_err := wr |} :: rest in
  let data := concat (map (fun a => V1.Data (V1.req a)) stream) in
  (∃ w',
     V1.Upload w stream None
     = (V1.Ok {| Message := "ok";
                 Size := int64 (Z.of_nat (length data));
                 HashOk := bool_decide (sha256_hex data = V1.Sha256 first) |},
        w')
     ∧ Os.files w' !! ("uploads/" +:+ V1.Filename first)
       = Some (concat (map V1.written stream))
     ∧ Os.fds w' !! Os.next_fd w = None)
  ∧ V1.Upload w [] None
    = (V1.Ok {| Message := "ok"; Size := 0; HashOk := false |}, w).
Proof.
  intros stream data. split.
  - unfold V1.Upload, stream. cbn [V1.Upload_loop V1.req V1.create_err].
    rewrite Upload_facts.Create_writing.
    rewrite (Upload_facts.Write_writing w _ _ []).
    change Sha256.New with (Sha256.fed []).
    rewrite Sha256_facts.Write_fed.
    change (int64 (0 + Z.of_nat (length (V1.Data first))))
      with (int64 (Z.of_nat (length (V1.Data first)))).
    rewrite V1_facts.loop_open.
    eexists. split.
    + unfold data, stream. cbn [map concat V1.req app].
      rewrite length_app, Nat2Z.inj_add. reflexivity.
    + unfold Os.Close, writing. cbn [Os.files Os.fds map concat app].
      by rewrite lookup_insert_eq, lookup_delete_eq.
  - unfold V1.Upload. cbn [V1.Upload_loop].
    rewrite bool_decide_eq_false_2; [done|].
    change (Hex.EncodeToString (Sha256.Sum Sha256.New)) with (sha256_hex []).
    apply V1_facts.sha256_hex_not_empty.
Qed.
Local Transparent sanitizeFilename safePath Sha256.Sum Sha256.Write
  Hex.EncodeToString.

Module Stream_facts.
Import BrowserStream.

Lemma chunkSize_pos : 0 < chunkSize.
Proof. unfold chunkSize. apply Nat.mul_pos_pos; apply Nat.lt_0_succ. Qed.

Lemma take_drop_own_length (n : nat) (l : list byte) :
  take n l ++ drop (length (take n l)) l = l.
Proof.
  rewrite length_take. destruct (Nat.le_gt_cases n (length l)).
  - rewrite Nat.min_l by done. apply take_drop.
  - rewrite Nat.min_r, take_ge, drop_all by lia. apply app_nil_r.
Qed.

(** The slices are what is left of the data from [offset] on. *)
Lemma slices_concat fuel : ∀ offset (data : list byte),
  length data - offset ≤ fuel →
  concat (slices fuel offset data) = drop offset data.
Proof.
  pose proof chunkSize_pos as Hpos.
  induction fuel as [|fuel IH]; intros offset data Hfuel; cbn [slices].
  - rewrite drop_ge by lia. done.
  - destruct (Nat.ltb_spec offset (length data)) as [Hlt|Hge].
    + cbn [concat]. rewrite IH.
      * rewrite <- drop_drop. apply take_drop_own_length.
      * rewrite length_take, length_drop.
        generalize dependent chunkSize. intros n Hn. lia.
    + rewrite drop_ge by lia. done.
Qed.

Lemma slices_nonempty fuel : ∀ offset (data : list byte),
  Forall (fun c => c ≠ [] ∧ length c ≤ chunkSize) (slices fuel offset data).
Proof.
  pose proof chunkSize_pos as Hpos.
  induction fuel as [|fuel IH]; intros offset data; cbn [slices];
    [constructor|].
  destruct (Nat.ltb_spec offset (length data)) as [Hlt|Hge]; [|constructor].
  constructor; [|apply IH]. split.
  - intros H. apply (f_equal (@length _)) in H.
    rewrite length_take, length_drop in H. cbn [length] in H.
    generalize dependent chunkSize. intros n Hn H. lia.
  - rewrite length_take. generalize chunkSize. intros n. lia.
Qed.

Lemma requests_data name title hash first (cs : list (list byte)) :
  map V1.Data (requests name title hash first cs) = cs.
Proof.
  revert first. induction cs as [|c cs IH]; intros first; [done|].
  cbn [requests map V1.Data]. by rewrite IH.
Qed.

Lemma map_deliver_data (reqs : list V1.UploadRequest) :
  map (fun a => V1.Data (V1.req a)) (map V1.deliver reqs) = map V1.Data reqs.
Proof. rewrite map_map. done. Qed.

Lemma map_deliver_written (reqs : list V1.UploadRequest) :
  map V1.written (map V1.deliver reqs) = map V1.Data reqs.
Proof. rewrite map_map. done. Qed.


End Stream_facts.

Local Opaque sanitizeFilename safePath Sha256.Sum Sha256.Write
  Hex.EncodeToString.

(** X19. The streaming browser client cuts the file into slices that are
    never empty and never longer than 64 KB, and that put together are the
    bytes of the file; an empty file gives no slice, so no message. *)
Theorem browser_slices_cover_the_file (file : Browser.File) (title : string) :
  let sent := BrowserStream.chunks file title in
  concat (map V1.Data sent) = Browser.data file
  ∧ Forall (fun r => V1.Data r ≠ []
                     ∧ length (V1.Data r) ≤ BrowserStream.chunkSize) sent
  ∧ (Browser.data file = [] → sent = []).
Proof.
  intros sent. unfold sent, BrowserStream.chunks.
  split; [|split].
  - rewrite Stream_facts.requests_data, Stream_facts.slices_concat by lia.
    done.
  - apply Forall_forall. intros r Hr.
    apply (list_elem_of_fmap_2 V1.Data) in Hr.
    rewrite Stream_facts.requests_data in Hr.
    pose proof (Stream_facts.slices_nonempty
                  (length (Browser.data file)) 0 (Browser.data file)) as Hall.
    rewrite Forall_forall in Hall. by apply Hall.
  - by intros ->.
Qed.

Lemma browser_slices_cover_the_file_witness :
  BrowserStream.chunks {| Browser.name := "empty"; Browser.data := [] |} "t"
  = [].
Proof.
  apply (browser_slices_cover_the_file
           {| Browser.name := "empty"; Browser.data := [] |} "t").
  reflexivity.
Defined.
Local Transparent sanitizeFilename safePath Sha256.Sum Sha256.Write
  Hex.EncodeToString.

Module V1_client_facts.

(** The first server on messages that are all created and written. *)
Lemma upload_delivered (w : Os.world) (r0 : V1.UploadRequest)
    (rs : list V1.UploadRequest) :
  let data := concat (map V1.Data (r0 :: rs)) in
  V1.Upload w (map V1.deliver (r0 :: rs)) None
  = (V1.Ok {| Message := "ok";
              Size := int64 (Z.of_nat (length data));
              HashOk := bool_decide (sha256_hex data = V1.Sha256 r0) |},
     Os.Close (Os.next_fd w)
       (writing w (Os.next_fd w) ("uploads/" +:+ V1.Filename r0) data)).
Proof.
  intros data. unfold V1.Upload.
  cbn [map V1.Upload_loop V1.deliver V1.req V1.create_err V1.written
       V1.write_err].
  rewrite Upload_facts.Create_writing.
  rewrite (Upload_facts.Write_writing w _ _ []).
  change Sha256.New with (Sha256.fed []).
  rewrite Sha256_facts.Write_fed.
  change (int64 (0 + Z.of_nat (length (V1.Data r0))))
    with (int64 (Z.of_nat (length (V1.Data r0)))).
  rewrite V1_facts.loop_open.
  rewrite Stream_facts.map_deliver_data, Stream_facts.map_deliver_written.
  unfold data. cbn [map concat app].
  by rewrite length_app, Nat2Z.inj_add.
Qed.

Lemma upload_nothing (w : Os.world) :
  V1.Upload w (map V1.deliver []) None
  = (V1.Ok {| Message := "ok"; Size := 0; HashOk := false |}, w).
Proof.
  unfold V1.Upload. cbn [map V1.Upload_loop].
  rewrite bool_decide_eq_false_2; [done|].
  change (Hex.EncodeToString (Sha256.Sum Sha256.New)) with (sha256_hex []).
  apply V1_facts.sha256_hex_not_empty.
Qed.

(** The messages of the Go client: the data are the non-empty reads, and
    the first message, if there is one, has name and digest. *)
Lemma read_loop_data name title hash first (rs : list (list byte)) :
  map V1.Data (V1Client.read_loop name title hash first rs)
  = List.filter nonempty rs.
Proof.
  revert first. induction rs as [|p rs IH]; intros first; [done|].
  cbn [V1Client.read_loop List.filter]. unfold nonempty at 1.
  destruct (0 <? length p); [|apply IH]. cbn [map V1.Data]. by rewrite IH.
Qed.

Lemma read_loop_head name title hash (rs : list (list byte)) :
  match V1Client.read_loop name title hash true rs with
  | [] => True
  | r0 :: _ => V1.Filename r0 = name ∧ V1.Sha256 r0 = hash
  end.
Proof.
  induction rs as [|p rs IH]; [done|].
  cbn [V1Client.read_loop]. by destruct (0 <? length p).
Qed.

Lemma copy_digest_hex (copied : list (list byte)) :
  V1Client.sha256File copied = sha256_hex (concat copied).
Proof.
  unfold V1Client.sha256File, sha256_hex.
  change Sha256.New with (Sha256.fed []).
  by rewrite Sha256_facts.fold_Write_fed, Upload_facts.Sum256_fed.
Qed.

End V1_client_facts.

Local Opaque sanitizeFilename safePath Sha256.Sum Sha256.Write
  Hex.EncodeToString.


(** X21. The first Go client and the first server together, when both
    passes over the file read the same bytes and every write succeeds.  For
    a file that is not empty the server answers with [HashOk] true and the
    length of the file, and holds its bytes at [uploads/] followed by the
    last element of the client's path.  For an empty file the client sends
    nothing, the server creates no file and answers with [HashOk] false. *)
Theorem first_client_upload
    (w : Os.world) (prog path title : string) (more : list string)
    (copied rs : list (list byte)) :
  concat copied = concat rs →
  let sent := V1Client.main (prog :: path :: title :: more) copied rs in
  (concat rs ≠ [] →
   ∃ w',
     V1.Upload w (map V1.deliver sent) None
     = (V1.Ok {| Message := "ok";
                 Size := int64 (Z.of_nat (length (concat rs)));
                 HashOk := true |}, w')
     ∧ Os.files w' !! ("uploads/" +:+ Filepath.Base path) = Some (concat rs))
  ∧ (concat rs = [] →
     sent = []
     ∧ V1.Upload w (map V1.deliver sent) None
       = (V1.Ok {| Message := "ok"; Size := 0; HashOk := false |}, w)).
Proof.
  intros Hsame sent. unfold sent, V1Client.main.
  set (name := Filepath.Base path). set (hash := V1Client.sha256File copied).
  pose proof (V1_client_facts.read_loop_data name title hash true rs) as Hlist.
  pose proof (V1_client_facts.read_loop_head name title hash rs) as Hhead.
  assert (concat (map V1.Data (V1Client.read_loop name title hash true rs))
          = concat rs) as Hdata.
  { by rewrite Hlist, Client_facts.concat_nonempty. }
  destruct (V1Client.read_loop name title hash true rs) as [|r0 reqs].
  - split; [intros Hne; by destruct Hne|].
    intros _. split; [done|]. apply V1_client_facts.upload_nothing.
  - split.
    + intros _. destruct Hhead as [Hn Hh].
      rewrite V1_client_facts.upload_delivered. cbv zeta.
      rewrite Hdata, Hn, Hh. unfold hash.
      rewrite V1_client_facts.copy_digest_hex, Hsame.
      rewrite bool_decide_eq_true_2 by done.
      eexists. split; [reflexivity|].
      unfold Os.Close, writing. cbn [Os.files]. apply lookup_insert_eq.
    + intros Hempty. exfalso.
      pose proof (Client_facts.nonempty_Forall rs) as Hall.
      rewrite <- Hlist in Hall. cbn [map] in Hall.
      apply Forall_cons in Hall as [Hr0 _].
      rewrite Hempty in Hdata. cbn [map concat] in Hdata.
      by apply app_eq_nil in Hdata as [? _].
Qed.

Lemma first_client_upload_witness :
  ∃ w',
    V1.Upload (Os.World ∅ ∅ 0)
      (map V1.deliver
         (V1Client.main ["client"; "docs/a.txt"; "t"] [bytes "abcdef"]
            [bytes "abc"; bytes "def"])) None
    = (V1.Ok {| Message := "ok";
                Size := int64 (Z.of_nat (length (concat [bytes "abc"; bytes "def"])));
                HashOk := true |}, w')
    ∧ Os.files w' !! ("uploads/" +:+ Filepath.Base "docs/a.txt")
      = Some (concat [bytes "abc"; bytes "def"]).
Proof.
  apply (first_client_upload (Os.World ∅ ∅ 0) "client" "docs/a.txt" "t" []
           [bytes "abcdef"] [bytes "abc"; bytes "def"]).
  - reflexivity.
  - discriminate.
Defined.
Local Transparent sanitizeFilename safePath Sha256.Sum Sha256.Write
  Hex.EncodeToString.

Module V2_facts.

Lemma second_loop_chunks chunks : ∀ w fd hash name data rest serr,
  V2.Upload_loop (V2.receiving fd hash name data)
    (writing w fd (safePath name) data) (V2.deliver_chunks chunks ++ rest) serr
  = V2.Upload_loop (V2.receiving fd hash name (data ++ concat chunks))
      (writing w fd (safePath name) (data ++ concat chunks)) rest serr.
Proof.
  induction chunks as [|c chunks IH]; intros w fd hash name data rest serr.
  - cbn [V2.deliver_chunks map app concat]. by rewrite app_nil_r.
  - cbn [V2.deliver_chunks map app concat V2.Upload_loop V2.deliver
         V2.ctx_done V2.msg V2.io V2.receiving V2.file V2.filename V2.total
         V2.hasher V2.clientHash V2.metadataReceived negb].
    rewrite Upload_facts.Write_writing, Sha256_facts.Write_fed,
      Upload_facts.int64_add, <- Nat2Z.inj_add, <- length_app.
    rewrite (assoc_L (++)). apply IH.
Qed.

Lemma second_loop_metadata_chunks w meta chunks rest serr :
  V2.Upload_loop V2.locals0 w
    (V2.deliver (V2.UploadRequest_Metadata meta)
     :: V2.deliver_chunks chunks ++ rest) serr
  = V2.Upload_loop
      (V2.receiving (Os.next_fd w) (V2.Sha256 meta)
         (sanitizeFilename (V2.Filename meta)) (concat chunks))
      (writing w (Os.next_fd w) (resolved (V2.Filename meta)) (concat chunks))
      rest serr.
Proof.
  cbn [V2.Upload_loop V2.deliver V2.ctx_done V2.msg V2.io V2.locals0 V2.file
       V2.filename V2.total V2.hasher V2.clientHash V2.metadataReceived].
  rewrite Upload_facts.Create_writing.
  apply (second_loop_chunks chunks w _ _ _ []).
Qed.

(** What the second server answers at the end of a stream of metadata and
    chunks. *)
Lemma upload_metadata_chunks w meta chunks :
  V2.Upload w
    (V2.deliver (V2.UploadRequest_Metadata meta) :: V2.deliver_chunks chunks)
    None
  = (V2.Ok {| Message := "ok";
              Size := int64 (Z.of_nat (length (concat chunks)));
              HashOk := bool_decide
                          (sha256_hex (concat chunks) = V2.Sha256 meta) |},
     Os.Close (Os.next_fd w)
       (writing w (Os.next_fd w) (resolved (V2.Filename meta))
          (concat chunks))).
Proof.
  unfold V2.Upload. rewrite <- (app_nil_r (V2.deliver_chunks chunks)).
  rewrite second_loop_metadata_chunks.
  cbn [V2.Upload_loop V2.receiving V2.metadataReceived V2.hasher V2.total
       V2.clientHash V2.file].
  unfold sha256_hex. by rewrite Upload_facts.Sum256_fed.
Qed.

Lemma read_loop_chunks rs : ∀ hs t,
  (V2Client.read_loop hs t rs).1.1
  = map V2.UploadRequest_Chunk (List.filter nonempty rs).
Proof.
  induction rs as [|p rs IH]; intros hs t; [done|].
  cbn [V2Client.read_loop].
  set (hs' := GoClient.tee hs p). set (t' := if 0 <? length p then _ else _).
  specialize (IH hs' t').
  destruct (V2Client.read_loop hs' t' rs) as [[sent h1] t1].
  cbn [fst] in *. rewrite IH. cbn [List.filter].
  unfold V2Client.send_chunk, nonempty. by destruct (0 <? length p).
Qed.

Lemma second_main_eof prog path title more (f : GoClient.source) :
  GoClient.last_err f = GoClient.EOF →
  V2Client.main (prog :: path :: title :: more) (Some f)
  = (V2.UploadRequest_Metadata
       {| V2.Filename := Filepath.Base path; V2.Title := title;
          V2.Sha256 := "" |}
     :: map V2.UploadRequest_Chunk
          (List.filter nonempty (GoClient.reads f ++ [GoClient.last_read f])),
     true).
Proof.
  intros Heof. unfold V2Client.main. rewrite Heof.
  pose proof (read_loop_chunks (GoClient.reads f) Sha256.New 0%Z) as Hloop.
  destruct (V2Client.read_loop Sha256.New 0 (GoClient.reads f))
    as [[sent hs] tb].
  cbn [fst] in Hloop. subst sent.
  rewrite List.filter_app, map_app. do 3 f_equal.
  unfold V2Client.send_chunk, nonempty. cbn [List.filter].
  by destruct (0 <? length (GoClient.last_read f)).
Qed.

End V2_facts.

Local Opaque sanitizeFilename safePath Sha256.Sum Sha256.Write
  Hex.EncodeToString.

(** X22. The second server, at the end of a stream of a metadata message
    and chunks, all handled without cancellation or I/O failure: the answer
    is always a response, with [Size] the total length and [HashOk] true
    exactly when the digest of the metadata is the lowercase-hex SHA-256 of
    the chunks.  Match or not, the file stays at the resolved path with the
    chunks, and the descriptor is closed. *)
Theorem second_server_reports_the_comparison
    (w : Os.world) (meta : V2.FileUploadMetadata)
    (chunks : list (list byte)) :
  ∃ resp w',
    V2.Upload w
      (V2.deliver (V2.UploadRequest_Metadata meta)
       :: V2.deliver_chunks chunks) None
    = (V2.Ok resp, w')
    ∧ Message resp = "ok"
    ∧ Size resp = int64 (Z.of_nat (length (concat chunks)))
    ∧ (HashOk resp = true ↔ V2.Sha256 meta = sha256_hex (concat chunks))
    ∧ Os.files w' !! resolved (V2.Filename meta) = Some (concat chunks)
    ∧ Os.fds w' !! Os.next_fd w = None.
Proof.
  rewrite V2_facts.upload_metadata_chunks. eexists _, _.
  split; [reflexivity|]. cbn [Message Size HashOk].
  split; [done|]. split; [done|]. split.
  - rewrite bool_decide_eq_true. split; congruence.
  - unfold Os.Close, writing. cbn [Os.files Os.fds].
    by rewrite lookup_insert_eq, lookup_delete_eq.
Qed.

Lemma second_server_reports_the_comparison_witness :
  ∃ resp w',
    V2.Upload (Os.World ∅ ∅ 0)
      [ V2.deliver (V2.UploadRequest_Metadata
                      {| V2.Filename := "a.txt"; V2.Title := "t";
                         V2.Sha256 := sha256_hex (bytes "abc") |});
        V2.deliver (V2.UploadRequest_Chunk (bytes "abc")) ] None
    = (V2.Ok resp, w')
    ∧ Message resp = "ok"
    ∧ Size resp = int64 (Z.of_nat (length (concat [bytes "abc"])))
    ∧ (HashOk resp = true
       ↔ sha256_hex (bytes "abc") = sha256_hex (concat [bytes "abc"]))
    ∧ Os.files w' !! resolved "a.txt" = Some (concat [bytes "abc"])
    ∧ Os.fds w' !! 0 = None.
Proof.
  exact (second_server_reports_the_comparison (Os.World ∅ ∅ 0)
           {| V2.Filename := "a.txt"; V2.Title := "t";
              V2.Sha256 := sha256_hex (bytes "abc") |} [bytes "abc"]).
Defined.

(** X23. The client of the second server sends an empty digest, so with the
    second server its upload is stored and answered with [HashOk] false,
    always: when the client reads its file to the end and the server meets
    no cancellation or I/O failure, the response has the length of the file
    and [HashOk] false, and the file at the resolved path of the client's
    path holds the bytes of the client's file. *)
Theorem second_client_is_never_verified
    (w : Os.world) (prog path title : string) (more : list string)
    (f : GoClient.source) :
  GoClient.last_err f = GoClient.EOF →
  ∃ w',
    V2.Upload w
      (map V2.deliver (V2Client.main (prog :: path :: title :: more) (Some f)).1)
      None
    = (V2.Ok {| Message := "ok";
                Size := int64 (Z.of_nat (length (GoClient.contents f)));
                HashOk := false |}, w')
    ∧ Os.files w' !! resolved path = Some (GoClient.contents f).
Proof.
  intros Heof. rewrite V2_facts.second_main_eof by done. cbn [fst map].
  set (chunks := List.filter nonempty _).
  assert (concat chunks = GoClient.contents f) as Hcat.
  { unfold chunks. rewrite Client_facts.concat_nonempty, concat_app. cbn.
    by rewrite app_nil_r. }
  rewrite map_map. fold (V2.deliver_chunks chunks).
  rewrite V2_facts.upload_metadata_chunks. cbn [V2.Sha256 V2.Filename].
  rewrite Hcat.
  rewrite bool_decide_eq_false_2 by apply V1_facts.sha256_hex_not_empty.
  eexists. split; [reflexivity|].
  unfold Os.Close, writing. cbn [Os.files].
  rewrite Client_facts.resolved_Base. apply lookup_insert_eq.
Qed.

Lemma second_client_is_never_verified_witness :
  ∃ w',
    V2.Upload (Os.World ∅ ∅ 0)
      (map V2.deliver
         (V2Client.main ["client"; "docs/a.txt"; "t"]
            (Some {| GoClient.reads := [bytes "abc"; bytes "def"];
                     GoClient.last_read := [];
                     GoClient.last_err := GoClient.EOF |})).1) None
    = (V2.Ok {| Message := "ok"; Size := 6; HashOk := false |}, w')
    ∧ Os.files w' !! resolved "docs/a.txt" = Some (bytes "abcdef").
Proof.
  apply (second_client_is_never_verified (Os.World ∅ ∅ 0) "client"
           "docs/a.txt" "t" []
           {| GoClient.reads := [bytes "abc"; bytes "def"];
              GoClient.last_read := [];
              GoClient.last_err := GoClient.EOF |}).
  reflexivity.
Defined.
